(** * LinkedIn analytics dashboard: the post metrics pipeline of [project.py]

    The script loads a spreadsheet into a pandas [DataFrame], coerces
    columns, filters rows by date range and keyword, derives per-row
    fields and computes summary metrics.  This development embeds that
    pipeline (source lines 25 to 93) and checks the written specification
    against it.

    Modelling conventions.
    - Text is a list of ASCII characters ([list ascii]); column names and
      messages are [string]s.
    - The number in a cell is an exact rational ([Q]), and so are the
      sums of cells.  The sums that pandas computes (in 64-bit integers or
      in double precision, by the dtype of the column) are these exact
      sums as long as the cells hold whole numbers whose absolute values
      add up to less than 2^53.
    - The quotients, the rates and the mean are double-precision numbers
      (the kernel's binary64 [float]), computed and rounded as the script
      does.
    - A raised Python exception is an [Err] value of the [result] type.
    - What pandas, [re] and [str] do on inputs the script does not control
      (text that looks like a number or a date, the rendering of a number,
      which columns [read_excel] types as dates, regular expressions
      beyond literals, [.] and escapes) is a field of the class [PyLib]:
      every theorem holds for all of its instances. *)

From Stdlib Require Import PrimFloat SpecFloat FloatOps FloatAxioms.
From Stdlib Require Import QArith Qround Qabs Lqa ZArith Ascii String List Lia Sorted.
From stdpp Require Import gmap strings list.

Local Open Scope Z_scope.

(* ===================================================================== *)
(** * Text *)
(* ===================================================================== *)

Module Text.

Definition text := list ascii.

(** A literal, as in the source. *)
Definition txt (s : string) : text := String.list_ascii_of_string s.

Definition is_upper (c : ascii) : bool :=
  let n := nat_of_ascii c in (65 <=? n)%nat && (n <=? 90)%nat.

(** [str.lower()] on one ASCII character. *)
Definition lower_char (c : ascii) : ascii :=
  if is_upper c then ascii_of_nat (nat_of_ascii c + 32) else c.

(** [s.lower()] *)
Definition lower (s : text) : text := lower_char <$> s.

(** The class [\w] of [re] on ASCII text: letters, digits, underscore. *)
Definition is_word (c : ascii) : bool :=
  let n := nat_of_ascii c in
  ((48 <=? n)%nat && (n <=? 57)%nat)
  || ((65 <=? n)%nat && (n <=? 90)%nat)
  || ((97 <=? n)%nat && (n <=? 122)%nat)
  || (n =? 95)%nat.

(** [s.startswith(p)] *)
Fixpoint starts_with (p s : text) : bool :=
  match p, s with
  | [], _ => true
  | _ :: _, [] => false
  | a :: p', b :: s' => bool_decide (a = b) && starts_with p' s'
  end.

(** [p in s]: [p] occurs in [s] as a contiguous run of characters. *)
Fixpoint contains (p s : text) : bool :=
  starts_with p s ||
  match s with
  | [] => false
  | _ :: s' => contains p s'
  end.

(** [s[0:n]] *)
Definition slice0 (n : nat) (s : text) : text := take n s.

End Text.
Import Text.

(* ===================================================================== *)
(** * Exceptions and results *)
(* ===================================================================== *)

Inductive exn :=
| KeyError (key : string)      (* a missing column, or a missing row label *)
| IndexError                   (* [iloc[0]] on an empty selection *)
| ValueError (msg : string)
| ReError                      (* [re.error]: the keyword is not a valid pattern *)
| ZeroDivisionError.

Inductive result (A : Type) :=
| Ok (a : A)
| Err (e : exn).
Arguments Ok {A} a.
Arguments Err {A} e.

(** Exceptions propagate: the error monad, with stdpp's [x ← m; k]. *)
Global Instance result_ret : MRet result := λ A a, Ok a.
Global Instance result_bind : MBind result := λ A B f m,
  match m with
  | Ok a => f a
  | Err e => Err e
  end.
Global Instance result_fmap : FMap result := λ A B f m,
  match m with
  | Ok a => Ok (f a)
  | Err e => Err e
  end.

(** The script defines no exception of its own and has no [try]
    statement: an exception raised by a library call reaches the top
    level, where the run stops.  An [Err] of a stage is therefore an
    [Err] of the whole run.

    The [ValueError] that [Series.idxmax] raises on a series without
    elements. *)
Definition argmax_of_empty : exn :=
  ValueError "attempt to get argmax of an empty sequence".

(* ===================================================================== *)
(** * Regular expressions: the fragment modelled in full *)
(* ===================================================================== *)

(** [str.contains] hands the keyword to [re.compile] (its [regex]
    argument defaults to [True]).  Patterns built from ordinary characters,
    [.] and backslash-escaped special characters are modelled here; any
    other pattern is left to [PyLib]. *)
Module Re.

Inductive atom :=
| Lit (c : ascii)      (* an ordinary or an escaped character *)
| AnyChar.             (* [.] *)

(** The special characters of [re]. *)
Definition special (c : ascii) : bool :=
  bool_decide (c ∈ txt ".^$*+?{}[]\|()").

Fixpoint parse (p : text) : option (list atom) :=
  match p with
  | [] => Some []
  | c :: p' =>
      if bool_decide (c = "\"%char) then
        match p' with
        | d :: p'' => if special d then cons (Lit d) <$> parse p'' else None
        | [] => None
        end
      else if bool_decide (c = "."%char) then cons AnyChar <$> parse p'
      else if special c then None
      else cons (Lit c) <$> parse p'
  end.

(** One character against one atom, under [re.IGNORECASE]. *)
Definition atom_matches (a : atom) (c : ascii) : bool :=
  match a with
  | Lit d => bool_decide (lower_char d = lower_char c)
  | AnyChar => negb (bool_decide (c = "010"%char))
  end.

Fixpoint match_here (r : list atom) (s : text) : bool :=
  match r, s with
  | [], _ => true
  | _ :: _, [] => false
  | a :: r', c :: s' => atom_matches a c && match_here r' s'
  end.

(** [pattern.search(s) is not None] *)
Fixpoint search (r : list atom) (s : text) : bool :=
  match_here r s ||
  match s with
  | [] => false
  | _ :: s' => search r s'
  end.

End Re.

(* ===================================================================== *)
(** * Cells and the library *)
(* ===================================================================== *)

Inductive cell :=
| CNull                     (* NaN, NaT, None: a missing value *)
| CStr (s : text)
| CNum (q : Q)
| CDate (t : Z)             (* a timestamp: nanoseconds since the epoch *)
| CList (l : list text).    (* the list held by a Hashtags cell *)

(** Library behaviour the script relies on without fixing it. *)
Class PyLib := {
  (* [pd.to_numeric] on a text cell: its value, if it reads as a number *)
  parse_number : text → option Q;
  (* [pd.to_datetime] on a text cell *)
  parse_date : text → option Z;
  (* [pd.to_datetime] on a numeric cell *)
  number_to_date : Q → option Z;
  (* whether [read_excel] gave the column the dtype datetime64: a column
     whose cells are all dates or blanks *)
  datetime64 : string → bool;
  (* [str(x)] for a cell that is neither text nor missing *)
  str_value : cell → text;
  (* [re.compile(p, re.IGNORECASE).search] for a pattern outside [Re.parse] *)
  re_compile_ext : text → result (text → bool)
}.

(** The least 64-bit integer, which is how NaT reads as an integer. *)
Definition int64_min : Z := - 2 ^ 63.

Definition is_null (c : cell) : bool :=
  match c with CNull => true | _ => false end.

Definition numeric (c : cell) : option Q :=
  match c with CNum q => Some q | _ => None end.

Definition Qltb (x y : Q) : bool := negb (Qle_bool y x).

(** The double nearest to a whole number (ties to even), as in the
    conversion of a 64-bit integer to a double. *)
Definition float_of_Z (z : Z) : float :=
  SF2Prim (binary_normalize prec emax z 0 false).

(** A total as the double that enters a division.  For a whole number
    below 2^53 in absolute value this is the number itself, be it held as
    a 64-bit integer or as a double; for any other number it is a double
    close to it. *)
Definition float_of_Q (q : Q) : float :=
  let q := Qred q in
  (float_of_Z (Qnum q) / float_of_Z (Z.pos (Qden q)))%float.

(** Division of doubles; Python raises on a zero divisor. *)
Definition py_div (a b : float) : result float :=
  if (b =? 0)%float then Err ZeroDivisionError else Ok (a / b)%float.

(** Rounding to the nearest integer, ties to the even one. *)
Definition round_half_even (x : Q) : Z :=
  let f := Qfloor x in
  let r := (x - inject_Z f)%Q in
  if Qltb r (1 # 2) then f
  else if Qltb (1 # 2) r then f + 1
  else if Z.even f then f else f + 1.

(** [rint]: the whole number nearest to a double, ties to the even one.
    A finite double is (-1)^s * m * 2^e; with e >= 0 it is whole already,
    and so is every double from 2^52 on. *)
Definition rint (x : float) : float :=
  match Prim2SF x with
  | S754_finite s m e =>
      if 0 <=? e then x
      else
        let n := float_of_Z (round_half_even (Z.pos m # 2 ^ Z.to_pos (- e))) in
        if s then (- n)%float else n
  | _ => x
  end.

(** [round(x, 2)] on a double held by numpy, which is what the sums and
    the mean of a column are: numpy multiplies by 100, rounds to the
    nearest whole number and divides by 100, each step in double
    precision. *)
Definition py_round2 (x : float) : float := (rint (x * 100) / 100)%float.

(* ===================================================================== *)
(** * Data frames *)
(* ===================================================================== *)

(** A row carries its index label and its cells by column name.  The
    labels are those given by [read_excel]; filtering keeps them. *)
Definition row : Type := Z * gmap string cell.

Record DataFrame := mkDF {
  columns : list string;      (* the header, after [str.strip] (line 24) *)
  rows : list row
}.

Definition cell_at (c : string) (r : row) : cell := default CNull (r.2 !! c).

(** [df[c]]: the cells of a column, or [KeyError]. *)
Definition df_col (c : string) (df : DataFrame) : result (list cell) :=
  if bool_decide (c ∈ columns df) then Ok (cell_at c <$> rows df)
  else Err (KeyError c).

(** [df[c] = values], the values computed row by row. *)
Definition assign (c : string) (f : row → cell) (df : DataFrame) : DataFrame :=
  mkDF (if bool_decide (c ∈ columns df) then columns df else columns df ++ [c])
       ((λ r, (r.1, <[c := f r]> r.2)) <$> rows df).

(** [df[mask]], the mask computed row by row. *)
Definition select (keep : row → bool) (df : DataFrame) : DataFrame :=
  mkDF (columns df) (List.filter keep (rows df)).

(** [Series.sum()]: missing values are skipped.  The sum is the exact
    one (see the conventions at the top for when pandas computes it). *)
Definition sum_cells (l : list cell) : Q :=
  foldr (λ c acc, match c with CNum q => (q + acc)%Q | _ => acc end) 0%Q l.

(** [Series.mean()]: the sum of the values present divided by their
    number, in double precision; NaN ([None]) if there is none. *)
Definition mean_cells (l : list cell) : option float :=
  match omap numeric l with
  | [] => None
  | qs => Some (float_of_Q (foldr Qplus 0%Q qs)
                / float_of_Z (Z.of_nat (length qs)))%float
  end.

(** The label of the first greatest value. *)
Fixpoint argmax_from (best : Z * Q) (l : list (Z * Q)) : Z :=
  match l with
  | [] => best.1
  | x :: l' => if Qltb best.2 x.2 then argmax_from x l' else argmax_from best l'
  end.

(** [df[c].idxmax()]: raises on a series without elements; when every
    value is missing the label is NaN ([None]). *)
Definition idxmax (c : string) (df : DataFrame) : result (option Z) :=
  _ ← df_col c df;
  match rows df with
  | [] => Err argmax_of_empty
  | _ =>
      match omap (λ r : row, pair r.1 <$> numeric (cell_at c r)) (rows df) with
      | [] => Ok None
      | b :: l => Ok (Some (argmax_from b l))
      end
  end.

(** [df.loc[label]] *)
Definition loc (label : option Z) (df : DataFrame) : result row :=
  match label with
  | None => Err (KeyError "nan")
  | Some i =>
      match List.find (λ r : row, bool_decide (r.1 = i)) (rows df) with
      | Some r => Ok r
      | None => Err (KeyError "label")
      end
  end.

(* ===================================================================== *)
(** * The pipeline *)
(* ===================================================================== *)

Inductive post_type := Educational | Other.

Definition post_type_name (t : post_type) : text :=
  match t with
  | Educational => txt "Educational"
  | Other => txt "Other"
  end.

(** Line 77. *)
Definition educational_keywords : list text :=
  txt <$> ["learn"; "educational"; "knowledge"; "tips"; "tutorial"; "training"; "course"].

(** The longest run of word characters at the start of [s]. *)
Fixpoint word_run (s : text) : text :=
  match s with
  | c :: s' => if is_word c then c :: word_run s' else []
  | [] => []
  end.

(** A match of [#\w+] starting at the first character of [s]. *)
Definition hashtag_at (s : text) : option text :=
  match s with
  | c :: s' =>
      if bool_decide (c = "#"%char) then
        match word_run s' with
        | [] => None
        | w => Some (c :: w)
        end
      else None
  | [] => None
  end.

(** [re.findall(r"#\w+", s)]: the text is scanned from left to right; a
    match is recorded and the scan resumes after it ([skip] characters
    are still covered by the last match). *)
Fixpoint findall_from (skip : nat) (s : text) : list text :=
  match s with
  | [] => []
  | _ :: s' =>
      match skip with
      | S k => findall_from k s'
      | O =>
          match hashtag_at s with
          | Some tag => tag :: findall_from (length tag - 1) s'
          | None => findall_from 0 s'
          end
      end
  end.

Definition findall_hashtags (s : text) : list text := findall_from 0 s.

Record Summary := mkSummary {
  total_likes : Q;
  total_comments : Q;
  total_shares : Q;
  total_clicks : Q;
  total_impressions : Q;
  engagement_rate : float;
  ctr : float;
  avg_engagement : option float;   (* [None] is NaN *)
  top_post : row;
  top_engaging_post : row
}.

Record Output := mkOutput {
  platform : cell;
  person : cell;
  warnings : list string;
  table : DataFrame;
  summary : Summary
}.

Section Pipeline.
Context {lib : PyLib}.

(** [str(x)], also [astype(str)] on one cell: a missing value reads
    ["nan"]. *)
Definition py_str (c : cell) : text :=
  match c with
  | CStr s => s
  | CNull => txt "nan"
  | _ => str_value c
  end.

(** [pd.to_numeric(..., errors='coerce')] on one cell of the column
    [c].  The conversion depends on the dtype of the column.  A column
    of dates (datetime64) is read as 64-bit integers: a date becomes its
    nanoseconds and a missing date the least integer; such a column holds
    nothing else before the conversion, and numbers after it.  In any
    other column a number is kept, a text that reads as a number becomes
    that number, and every other cell becomes NaN. *)
Definition to_numeric_cell (c : string) (x : cell) : cell :=
  if datetime64 c then
    match x with
    | CDate t => CNum (inject_Z t)
    | CNum q => CNum q
    | _ => CNum (inject_Z int64_min)
    end
  else
    match x with
    | CNum q => CNum q
    | CStr s => match parse_number s with Some q => CNum q | None => CNull end
    | _ => CNull
    end.

(** [pd.to_datetime(..., errors='coerce')] on one cell. *)
Definition to_datetime_cell (c : cell) : cell :=
  match c with
  | CDate t => CDate t
  | CStr s => match parse_date s with Some t => CDate t | None => CNull end
  | CNum q => match number_to_date q with Some t => CDate t | None => CNull end
  | _ => CNull
  end.

(** [df[c] = pd.to_numeric(df[c], errors='coerce')] *)
Definition to_numeric (c : string) (df : DataFrame) : result DataFrame :=
  _ ← df_col c df;
  mret (assign c (λ r, to_numeric_cell c (cell_at c r)) df).

(** [df[c] = pd.to_datetime(df[c], errors='coerce')] *)
Definition to_datetime (c : string) (df : DataFrame) : result DataFrame :=
  _ ← df_col c df;
  mret (assign c (λ r, to_datetime_cell (cell_at c r)) df).

(** Lines 25 and 26. *)
Definition load (df : DataFrame) : result DataFrame :=
  df ← to_numeric "Impressions" df;
  to_datetime "Date" df.

(** Lines 29 and 30:
    [df[c].dropna().iloc[0] if c in df.columns else default]. *)
Definition info_field (c : string) (dflt : text) (df : DataFrame) : result cell :=
  if bool_decide (c ∈ columns df) then
    col ← df_col c df;
    match List.filter (λ x, negb (is_null x)) col with
    | x :: _ => Ok x
    | [] => Err IndexError
    end
  else Ok (CStr dflt).

(** [(df['Date'] >= start) & (df['Date'] <= end)] on one row; a
    comparison with NaT is false. *)
Definition in_range (start_date end_date : Z) (r : row) : bool :=
  match cell_at "Date" r with
  | CDate t => (start_date <=? t) && (t <=? end_date)
  | _ => false
  end.

(** Lines 43 to 47.  [date_range] is the tuple returned by the date
    picker, its dates as timestamps; the result carries the warnings
    shown. *)
Definition date_filter (date_range : list Z) (df : DataFrame)
  : result (DataFrame * list string) :=
  match date_range with
  | [start_date; end_date] =>
      _ ← df_col "Date" df;
      mret (select (in_range start_date end_date) df, [])
  | _ => mret (df, ["Please select a valid start and end date."])
  end.

(** [re.compile(pat, re.IGNORECASE).search] *)
Definition re_compile (pat : text) : result (text → bool) :=
  match Re.parse pat with
  | Some r => Ok (Re.search r)
  | None => re_compile_ext pat
  end.

(** Lines 51 and 52:
    [df[df['Post'].astype(str).str.contains(keyword, case=False, na=False)]]
    when the keyword is not empty. *)
Definition keyword_filter (keyword : text) (df : DataFrame) : result DataFrame :=
  match keyword with
  | [] => mret df
  | _ =>
      _ ← df_col "Post" df;
      found ← re_compile keyword;
      mret (select (λ r, found (py_str (cell_at "Post" r))) df)
  end.

(** [a + b] on two cells of numeric columns: NaN if either is. *)
Definition add_cells (a b : cell) : cell :=
  match a, b with
  | CNum x, CNum y => CNum (x + y)
  | _, _ => CNull
  end.

(** Lines 55 to 59. *)
Definition coerce_metrics (df : DataFrame) : result DataFrame :=
  df ← to_numeric "Likes" df;
  df ← to_numeric "Comments" df;
  df ← to_numeric "Shares" df;
  df ← to_numeric "Clicks" df;
  _ ← df_col "Likes" df;
  _ ← df_col "Comments" df;
  _ ← df_col "Shares" df;
  mret (assign "Total Engagement"
          (λ r, add_cells (add_cells (cell_at "Likes" r) (cell_at "Comments" r))
                          (cell_at "Shares" r)) df).

(** Line 67, from the three totals and the total of impressions. *)
Definition engagement_rate_of (likes comments shares impressions : Q)
  : result float :=
  let total_impressions := float_of_Q impressions in
  if (0 <? total_impressions)%float then
    r ← py_div (float_of_Q (likes + comments + shares)) total_impressions;
    mret (py_round2 (r * 100))
  else mret 0%float.

(** Line 68. *)
Definition ctr_of (clicks impressions : Q) : result float :=
  let total_impressions := float_of_Q impressions in
  if (0 <? total_impressions)%float then
    r ← py_div (float_of_Q clicks) total_impressions;
    mret (py_round2 (r * 100))
  else mret 0%float.

(** Lines 61 to 72. *)
Definition aggregate (df : DataFrame) : result Summary :=
  likes ← sum_cells <$> df_col "Likes" df;
  comments ← sum_cells <$> df_col "Comments" df;
  shares ← sum_cells <$> df_col "Shares" df;
  clicks ← sum_cells <$> df_col "Clicks" df;
  impressions ← sum_cells <$> df_col "Impressions" df;
  rate ← engagement_rate_of likes comments shares impressions;
  click_rate ← ctr_of clicks impressions;
  avg ← (λ l, py_round2 <$> mean_cells l) <$> df_col "Total Engagement" df;
  best ← idxmax "Likes" df;
  top ← loc best df;
  best_total ← idxmax "Total Engagement" df;
  top_total ← loc best_total df;
  mret (mkSummary likes comments shares clicks impressions rate click_rate avg
          top top_total).

(** Line 74: [astype(str).str.slice(0, 25) + "..."] on one cell. *)
Definition short_post (post : cell) : text :=
  slice0 25 (py_str post) ++ txt "...".

(** Lines 79 to 84, for a given keyword list. *)
Definition classify_with (keywords : list text) (post : cell) : post_type :=
  let post := lower (py_str post) in
  if existsb (λ keyword, contains keyword post) keywords then Educational
  else Other.

Definition classify_post_type : cell → post_type :=
  classify_with educational_keywords.

(** Line 93 on one cell. *)
Definition hashtags (post : cell) : list text := findall_hashtags (py_str post).

(** Lines 74, 86 and 93. *)
Definition derive (df : DataFrame) : result DataFrame :=
  _ ← df_col "Post" df;
  let df := assign "Short Post" (λ r, CStr (short_post (cell_at "Post" r))) df in
  let df := assign "Post Type"
              (λ r, CStr (post_type_name (classify_post_type (cell_at "Post" r)))) df in
  mret (assign "Hashtags" (λ r, CList (hashtags (cell_at "Post" r))) df).

(** The script from line 25 to line 93, for an uploaded table, a date
    selection and a keyword. *)
Definition dashboard (df : DataFrame) (date_range : list Z) (keyword : text)
  : result Output :=
  df ← load df;
  platform ← info_field "Platform" (txt "Unknown") df;
  person ← info_field "Person" (txt "N/A") df;
  '(df, warnings) ← date_filter date_range df;
  df ← keyword_filter keyword df;
  df ← coerce_metrics df;
  s ← aggregate df;
  df ← derive df;
  mret (mkOutput platform person warnings df s).

End Pipeline.

(* ===================================================================== *)
(** * A library instance for running the pipeline *)
(* ===================================================================== *)

(** The value of a run of decimal digits. *)
Fixpoint digits_value (acc : Z) (s : text) : option Z :=
  match s with
  | [] => Some acc
  | c :: s' =>
      match Ascii.is_nat c with
      | Some d => digits_value (10 * acc + Z.of_nat d) s'
      | None => None
      end
  end.

(** Text made of digits reads as a whole number, no text reads as a date,
    a number is a timestamp in nanoseconds, no column was read as a
    column of dates, other values render as the empty text and every
    pattern beyond [Re.parse] is rejected. *)
Definition plain_lib : PyLib := {|
  parse_number s := match s with [] => None | _ => inject_Z <$> digits_value 0 s end;
  parse_date _ := None;
  number_to_date q := Some (Qfloor q);
  datetime64 _ := false;
  str_value _ := [];
  re_compile_ext _ := Err ReError
|}.

(** A row from its label and its cells. *)
Definition mk_row (label : Z) (cells : list (string * cell)) : row :=
  (label, list_to_map cells).

Definition num (n : Z) : cell := CNum (inject_Z n).

Definition header : list string :=
  ["Platform"; "Person"; "Date"; "Post"; "Likes"; "Comments"; "Shares";
   "Clicks"; "Impressions"].

(** A full row of the input table. *)
Definition post_row (label date : Z) (post : cell)
    (likes comments shares clicks impressions : Z) : row :=
  mk_row label
    [("Platform", CStr (txt "LinkedIn")); ("Person", CStr (txt "A. Author"));
     ("Date", CDate date); ("Post", post);
     ("Likes", num likes); ("Comments", num comments); ("Shares", num shares);
     ("Clicks", num clicks); ("Impressions", num impressions)].

(** The two posts of the specification's scenario. *)
Definition scenario : DataFrame :=
  mkDF header
    [post_row 0 1 (CStr (txt "Great tutorial on X")) 10 2 1 5 100;
     post_row 1 2 (CStr (txt "Check our sale!")) 50 0 0 20 200].

(* ===================================================================== *)
(** * The specification's vocabulary *)
(* ===================================================================== *)

(** A case-insensitive occurrence of [k] in [s]: some contiguous part of
    [s] equals [k] up to letter case. *)
Definition occurs_ci (k s : text) : Prop :=
  ∃ pre mid suf, s = pre ++ mid ++ suf ∧ lower mid = lower k.

(** The same, as a test. *)
Definition contains_ci (k s : text) : bool := contains (lower k) (lower s).

(** An invalid date selection in the specification's sense: a single
    date, no date, or a start after the end. *)
Definition invalid_selection (date_range : list Z) : bool :=
  match date_range with
  | [start_date; end_date] => end_date <? start_date
  | _ => true
  end.

(** A record with a post text. *)
Definition has_post (r : row) : bool := negb (is_null (cell_at "Post" r)).

(** A table whose only post has no text. *)
Definition textless : DataFrame :=
  mkDF header [post_row 0 1 CNull 3 0 0 1 10].

(** The total of a column over the values present. *)
Definition total (c : string) (df : DataFrame) : Q :=
  sum_cells (cell_at c <$> rows df).

(** The columns read by the aggregation. *)
Definition metric_columns : list string :=
  ["Likes"; "Comments"; "Shares"; "Clicks"; "Impressions"; "Total Engagement"].

(** The scenario with its metric columns coerced (lines 55 to 59). *)
Definition scenario_metrics : DataFrame :=
  match coerce_metrics (lib := plain_lib) scenario with
  | Ok df => df
  | Err _ => scenario
  end.

(** An upload whose cells still need coercing: numbers written as
    text, texts that are no number, blanks, and a date that is no date. *)
Definition raw_upload : DataFrame :=
  mkDF header
    [mk_row 0
       [("Platform", CStr (txt "LinkedIn")); ("Person", CStr (txt "A. Author"));
        ("Date", CDate 1); ("Post", CStr (txt "First post"));
        ("Likes", CStr (txt "12")); ("Comments", CStr (txt "n/a"));
        ("Shares", num 3); ("Clicks", CNull);
        ("Impressions", CStr (txt "100"))];
     mk_row 1
       [("Platform", CStr (txt "LinkedIn")); ("Person", CStr (txt "A. Author"));
        ("Date", CStr (txt "soon")); ("Post", CStr (txt "Second post"));
        ("Likes", CNull); ("Comments", num 2);
        ("Shares", CStr (txt "few")); ("Clicks", CStr (txt "7"));
        ("Impressions", CStr (txt "many"))]].

(** An upload without the Impressions column. *)
Definition no_impressions : DataFrame :=
  mkDF ["Date"; "Post"; "Likes"; "Comments"; "Shares"; "Clicks"]
    [mk_row 0
       [("Date", CDate 1); ("Post", CStr (txt "First post"));
        ("Likes", num 1); ("Comments", num 0); ("Shares", num 0);
        ("Clicks", num 0)]].

(** An upload whose Likes cells are formatted as dates, the second one
    left blank: [read_excel] types the column as datetime64. *)
Definition dated_likes : DataFrame :=
  mkDF header
    [mk_row 0
       [("Platform", CStr (txt "LinkedIn")); ("Person", CStr (txt "A. Author"));
        ("Date", CDate 1); ("Post", CStr (txt "First post"));
        ("Likes", CDate 86400000000000); ("Comments", num 0);
        ("Shares", num 0); ("Clicks", num 0); ("Impressions", num 10)];
     mk_row 1
       [("Platform", CStr (txt "LinkedIn")); ("Person", CStr (txt "A. Author"));
        ("Date", CDate 2); ("Post", CStr (txt "Second post"));
        ("Likes", CNull); ("Comments", num 0);
        ("Shares", num 0); ("Clicks", num 0); ("Impressions", num 10)]].

Definition dated_likes_lib : PyLib := {|
  parse_number := parse_number (PyLib := plain_lib);
  parse_date := parse_date (PyLib := plain_lib);
  number_to_date := number_to_date (PyLib := plain_lib);
  datetime64 c := bool_decide (c = "Likes");
  str_value := str_value (PyLib := plain_lib);
  re_compile_ext := re_compile_ext (PyLib := plain_lib)
|}.

(** The input table after every record has been filtered out. *)
Definition no_records : DataFrame := mkDF header [].

(** A table without the Platform column, and one whose Platform cells
    are all empty. *)
Definition no_platform : DataFrame :=
  mkDF ["Person"; "Post"] [mk_row 0 [("Person", CStr (txt "A. Author"))]].

Definition blank_platform : DataFrame :=
  mkDF ["Platform"; "Post"] [mk_row 0 [("Platform", CNull)]; mk_row 1 []].

(** A cell of a numeric column after normalization. *)
Definition numeric_or_null (c : cell) : bool :=
  match c with CNum _ | CNull => true | _ => false end.

(** A cell of the date column after normalization. *)
Definition date_or_null (c : cell) : bool :=
  match c with CDate _ | CNull => true | _ => false end.

(** No match of [#\w+] in [g]: no ["#"] of [g] is directly followed by
    a word character. *)
Definition no_hashtag (g : text) : Prop :=
  ∀ pre c suf, g = pre ++ "#"%char :: c :: suf → is_word c = false.

(** [rest] does not start with a word character. *)
Definition word_ends (rest : text) : Prop :=
  ∀ c suf, rest = c :: suf → is_word c = false.

(** [hashtag_split s tags]: the text [s] reads as stretches without any
    hashtag alternating with the hashtags [tags], in this order; each
    hashtag is a ["#"] with all the word characters that follow it. *)
Inductive hashtag_split : text → list text → Prop :=
| split_done (g : text) :
    no_hashtag g → hashtag_split g []
| split_tag (g w rest : text) (tags : list text) :
    no_hashtag g →
    w ≠ [] → Forall (λ c, is_word c = true) w → word_ends rest →
    hashtag_split rest tags →
    hashtag_split (g ++ "#"%char :: w ++ rest) (("#"%char :: w) :: tags).

(* ===================================================================== *)
(** * Header, date bounds and chart data *)
(* ===================================================================== *)

(** The whitespace of [str.strip()] on ASCII text: tab to carriage
    return, the four separators and the space. *)
Definition is_space (c : ascii) : bool :=
  let n := nat_of_ascii c in
  ((9 <=? n)%nat && (n <=? 13)%nat) || ((28 <=? n)%nat && (n <=? 32)%nat).

(** [s.lstrip()] *)
Fixpoint lstrip (s : text) : text :=
  match s with
  | c :: s' => if is_space c then lstrip s' else s
  | [] => []
  end.

(** [s.rstrip()] *)
Definition rstrip (s : text) : text := reverse (lstrip (reverse s)).

(** [s.strip()] *)
Definition strip (s : text) : text := rstrip (lstrip s).

(** Line 24 on one column name and on the header. *)
Definition strip_name (name : string) : string :=
  string_of_list_ascii (strip (list_ascii_of_string name)).

Definition strip_columns (names : list string) : list string :=
  strip_name <$> names.

(** The timestamp of a record, if it has one. *)
Definition date_of (r : row) : option Z :=
  match cell_at "Date" r with
  | CDate t => Some t
  | _ => None
  end.

(** Lines 33 and 34: [df['Date'].min()] and [df['Date'].max()]; NaT
    ([None]) when no record has a date. *)
Definition date_min (df : DataFrame) : result (option Z) :=
  _ ← df_col "Date" df;
  mret (match omap date_of (rows df) with
        | [] => None
        | t :: ts => Some (foldl Z.min t ts)
        end).

Definition date_max (df : DataFrame) : result (option Z) :=
  _ ← df_col "Date" df;
  mret (match omap date_of (rows df) with
        | [] => None
        | t :: ts => Some (foldl Z.max t ts)
        end).

(** One more record for the groups of a [groupby]: the groups are kept
    in increasing order of their date. *)
Fixpoint group_add {V} (add : V → V → V) (t : Z) (v : V)
    (groups : list (Z * V)) : list (Z * V) :=
  match groups with
  | [] => [(t, v)]
  | g :: groups' =>
      if t <? g.1 then (t, v) :: groups
      else if t =? g.1 then (g.1, add g.2 v) :: groups'
      else g :: group_add add t v groups'
  end.

(** [df.groupby('Date')[...].sum()]: the records without a date are left
    out, the others are accumulated date by date. *)
Definition groupby_date {V} (add : V → V → V) (value : row → V)
    (rs : list row) : list (Z * V) :=
  foldl (λ groups r,
           match date_of r with
           | Some t => group_add add t (value r) groups
           | None => groups
           end) [] rs.

(** The contribution to a sum of a cell of a coerced column (the metric
    columns are numbers or null by line 58): a missing value adds
    nothing. *)
Definition metric (c : string) (r : row) : Q :=
  match cell_at c r with
  | CNum q => q
  | _ => 0%Q
  end.

(** Line 99. *)
Definition df_time (df : DataFrame) : result (list (Z * (Q * Q * Q))) :=
  _ ← df_col "Date" df;
  _ ← df_col "Likes" df;
  _ ← df_col "Comments" df;
  _ ← df_col "Shares" df;
  mret (groupby_date
          (λ a b, (a.1.1 + b.1.1, a.1.2 + b.1.2, a.2 + b.2)%Q)
          (λ r, (metric "Likes" r, metric "Comments" r, metric "Shares" r))
          (rows df)).

(** Line 100. *)
Definition df_area (df : DataFrame) : result (list (Z * (Q * Q))) :=
  _ ← df_col "Date" df;
  _ ← df_col "Impressions" df;
  _ ← df_col "Clicks" df;
  mret (groupby_date
          (λ a b, (a.1 + b.1, a.2 + b.2)%Q)
          (λ r, (metric "Impressions" r, metric "Clicks" r))
          (rows df)).

(** The values of the records dated [t], in table order, and their
    accumulation from the first one. *)
Definition day_values {V} (value : row → V) (t : Z) (rs : list row) : list V :=
  value <$> List.filter (λ r, bool_decide (date_of r = Some t)) rs.

Definition accumulate {V} (add : V → V → V) (vs : list V) : option V :=
  match vs with
  | [] => None
  | v :: vs' => Some (foldl add v vs')
  end.

(** A record with a date. *)
Definition dated (r : row) : bool :=
  match date_of r with Some _ => true | None => false end.

(** The sum of a list of numbers. *)
Definition Qsum (l : list Q) : Q := foldr Qplus 0%Q l.

(** The columns whose totals enter the rates. *)
Definition rate_columns : list string :=
  ["Likes"; "Comments"; "Shares"; "Clicks"; "Impressions"].

(** A whole number. *)
Definition whole (q : Q) : bool := Z.pos (Qden (Qred q)) =? 1.

(** The absolute values of the numbers of a column, added up. *)
Definition magnitude (c : string) (df : DataFrame) : Q :=
  Qsum ((λ r, match cell_at c r with CNum q => Qabs q | _ => 0%Q end) <$> rows df).

(** The tables on which the totals computed by pandas are the exact
    ones: the cells of the five columns hold whole numbers, and their
    absolute values add up to less than 2^53.  No 64-bit sum wraps
    around and no double-precision sum is rounded there, in whichever
    order the cells are added. *)
Definition exact_totals (df : DataFrame) : bool :=
  forallb (λ r,
    forallb (λ c, match cell_at c r with CNum q => whole q | _ => true end)
      rate_columns) (rows df)
  && Qltb (Qsum ((λ c, magnitude c df) <$> rate_columns)) (inject_Z (2 ^ 53)).

(** An upload of one post with 23 clicks on 160 impressions. *)
Definition tie_post : DataFrame :=
  mkDF header [post_row 0 1 (CStr (txt "Our new course")) 5 0 0 23 160].

(** A keyword with every special character of [re] preceded by a
    backslash. *)
Definition re_escape (k : text) : text :=
  k ≫= λ c, if Re.special c then ["\"%char; c] else [c].

(** A table without a Post column. *)
Definition no_post : DataFrame := mkDF ["Date"] [mk_row 0 [("Date", CDate 1)]].

(* ===================================================================== *)
(** * Properties of text search *)
(* ===================================================================== *)

Lemma starts_with_spec (p s : text) :
  starts_with p s = true ↔ ∃ suf, s = p ++ suf.
Proof.
  revert s. induction p as [|a p IH]; intros s; simpl.
  - split; eauto.
  - destruct s as [|b s].
    + split; [done | intros [suf Hs]; discriminate Hs].
    + rewrite andb_true_iff, bool_decide_eq_true, IH. split.
      * intros [-> [suf ->]]. eauto.
      * intros [suf Hs]. injection Hs as -> ->. eauto.
Qed.

Lemma contains_spec (p s : text) :
  contains p s = true ↔ ∃ pre suf, s = pre ++ p ++ suf.
Proof.
  induction s as [|c s IH].
  - simpl. rewrite orb_false_r, starts_with_spec. split.
    + intros [suf Hs]. exists [], suf. done.
    + intros (pre & suf & Hs). symmetry in Hs.
      apply app_eq_nil in Hs as [-> Hs]. eauto.
  - cbn [contains]. rewrite orb_true_iff, starts_with_spec, IH. split.
    + intros [[suf Hs] | (pre & suf & Hs)].
      * exists [], suf. done.
      * exists (c :: pre), suf. by rewrite Hs.
    + intros (pre & suf & Hs). destruct pre as [|c' pre].
      * left. eauto.
      * right. injection Hs as -> ->. eauto.
Qed.

Lemma lower_app (s1 s2 : text) : lower (s1 ++ s2) = lower s1 ++ lower s2.
Proof. apply fmap_app. Qed.

Lemma lower_char_idemp (c : ascii) : lower_char (lower_char c) = lower_char c.
Proof. by destruct c as [[] [] [] [] [] [] [] []]. Qed.

Lemma lower_idemp (s : text) : lower (lower s) = lower s.
Proof.
  unfold lower. rewrite <- list_fmap_compose. apply list_fmap_ext.
  intros _ c _. apply lower_char_idemp.
Qed.

(** Searching the lowered text for the lowered key finds exactly the
    occurrences up to letter case. *)
Lemma contains_ci_spec (k s : text) :
  contains_ci k s = true ↔ occurs_ci k s.
Proof.
  unfold contains_ci. rewrite contains_spec. split.
  - intros (pre & suf & Hs).
    exists (take (length pre) s),
           (take (length k) (drop (length pre) s)),
           (drop (length k) (drop (length pre) s)).
    split.
    + by rewrite !take_drop.
    + unfold lower in *. rewrite fmap_take, fmap_drop, Hs.
      rewrite drop_app_length.
      replace (length k) with (length (lower_char <$> k)) by apply length_fmap.
      by rewrite take_app_length.
  - intros (pre & mid & suf & -> & Hmid).
    exists (lower pre), (lower suf). by rewrite !lower_app, Hmid.
Qed.

(** A keyword without special characters compiles to itself. *)
Lemma parse_literal (k : text) :
  Forall (λ c, Re.special c = false) k → Re.parse k = Some (Re.Lit <$> k).
Proof.
  induction 1 as [|c k Hc _ IH]; [done|].
  cbn [Re.parse]. rewrite IH.
  destruct (bool_decide (c = "\"%char)) eqn:E1.
  { apply bool_decide_eq_true in E1 as ->. discriminate Hc. }
  destruct (bool_decide (c = "."%char)) eqn:E2.
  { apply bool_decide_eq_true in E2 as ->. discriminate Hc. }
  by rewrite Hc.
Qed.

Lemma match_here_literal (k s : text) :
  Re.match_here (Re.Lit <$> k) s = starts_with (lower k) (lower s).
Proof.
  revert s. induction k as [|a k IH]; intros [|b s]; simpl; try done.
  by rewrite IH.
Qed.

Lemma search_literal (k s : text) :
  Re.search (Re.Lit <$> k) s = contains_ci k s.
Proof.
  unfold contains_ci. induction s as [|b s IH].
  - simpl. by rewrite match_here_literal.
  - cbn [Re.search contains lower fmap list_fmap].
    fold (lower s). by rewrite <- IH, match_here_literal.
Qed.

(* ===================================================================== *)
(** * The filters *)
(* ===================================================================== *)

Lemma filter_idemp {A} (f : A → bool) (l : list A) :
  List.filter f (List.filter f l) = List.filter f l.
Proof.
  induction l as [|x l IH]; [done|]. simpl.
  destruct (f x) eqn:E; simpl; [rewrite E|]; by rewrite ?IH.
Qed.

Lemma filter_swap {A} (f g : A → bool) (l : list A) :
  List.filter f (List.filter g l) = List.filter g (List.filter f l).
Proof.
  induction l as [|x l IH]; [done|]. simpl.
  destruct (f x) eqn:Ef, (g x) eqn:Eg; simpl; rewrite ?Ef, ?Eg, ?IH; done.
Qed.

Lemma filter_andb {A} (f g : A → bool) (l : list A) :
  List.filter f (List.filter g l) = List.filter (λ x, g x && f x) l.
Proof.
  induction l as [|x l IH]; [done|]. simpl.
  destruct (g x) eqn:Eg; simpl; [destruct (f x)|]; by rewrite ?IH.
Qed.

Lemma df_col_present (c : string) (df : DataFrame) :
  c ∈ columns df → df_col c df = Ok (cell_at c <$> rows df).
Proof. intros Hc. unfold df_col. by rewrite bool_decide_eq_true_2. Qed.

Lemma df_col_absent (c : string) (df : DataFrame) :
  c ∉ columns df → df_col c df = Err (KeyError c).
Proof. intros Hc. unfold df_col. by rewrite bool_decide_eq_false_2. Qed.

Lemma select_select (f g : row → bool) (df : DataFrame) :
  select f (select g df) = select g (select f df).
Proof. unfold select. simpl. by rewrite filter_swap. Qed.

Lemma select_idemp (f : row → bool) (df : DataFrame) :
  select f (select f df) = select f df.
Proof. unfold select. simpl. by rewrite filter_idemp. Qed.

Ltac run_result :=
  repeat (cbn [mbind result_bind mret result_ret fmap result_fmap fst snd
               columns rows select] in *).

Section Filters.
Context {lib : PyLib}.

Lemma date_filter_pair (start_date end_date : Z) (df : DataFrame) :
  "Date" ∈ columns df →
  date_filter [start_date; end_date] df
  = Ok (select (in_range start_date end_date) df, []).
Proof. intros Hd. unfold date_filter. by rewrite df_col_present. Qed.

Lemma date_filter_not_pair (date_range : list Z) (df : DataFrame) :
  length date_range ≠ 2%nat →
  date_filter date_range df
  = Ok (df, ["Please select a valid start and end date."]).
Proof. by destruct date_range as [|? [|? [|? ?]]]. Qed.

Lemma keyword_filter_nonempty (keyword : text) (df : DataFrame) :
  keyword ≠ [] → "Post" ∈ columns df →
  keyword_filter keyword df
  = (found ← re_compile keyword;
     mret (select (λ r, found (py_str (cell_at "Post" r))) df)).
Proof.
  intros Hk Hp. destruct keyword; [done|].
  unfold keyword_filter. by rewrite df_col_present.
Qed.

(** C8: on a table with its Date and Post columns, the date filter with a
    start and end date and the keyword filter give the same table in
    either order, and filtering a second time with the same date selection
    or the same keyword changes nothing. *)
Theorem filters_commute_and_idempotent
    (df : DataFrame) (start_date end_date : Z) (date_range : list Z) (keyword : text) :
  "Date" ∈ columns df → "Post" ∈ columns df →
  (d ← fst <$> date_filter [start_date; end_date] df; keyword_filter keyword d)
  = (d ← keyword_filter keyword df; fst <$> date_filter [start_date; end_date] d)
  ∧ (d ← fst <$> date_filter date_range df; fst <$> date_filter date_range d)
    = fst <$> date_filter date_range df
  ∧ (d ← keyword_filter keyword df; keyword_filter keyword d)
    = keyword_filter keyword df.
Proof.
  intros Hd Hp. split_and!.
  - rewrite date_filter_pair by done. run_result.
    destruct keyword as [|c k].
    + unfold keyword_filter. run_result. by rewrite date_filter_pair.
    + rewrite !keyword_filter_nonempty by done.
      destruct (re_compile (c :: k)) as [found|e]; run_result; [|done].
      rewrite date_filter_pair by done. run_result.
      by rewrite select_select.
  - destruct (decide (length date_range = 2%nat)) as [Hl|Hl].
    + destruct date_range as [|s [|e [|? ?]]]; try discriminate Hl.
      rewrite date_filter_pair by done. run_result.
      rewrite date_filter_pair by done. run_result.
      by rewrite select_idemp.
    + rewrite date_filter_not_pair by done. run_result.
      by rewrite date_filter_not_pair.
  - destruct keyword as [|c k]; [done|].
    rewrite keyword_filter_nonempty by done.
    destruct (re_compile (c :: k)) as [found|e] eqn:E; run_result; [|done].
    rewrite keyword_filter_nonempty by done. rewrite E. run_result.
    by rewrite select_idemp.
Qed.

End Filters.

Section FilterProperties.
Context {lib : PyLib}.

(** C2 (amended): a date selection that is not a pair of dates (a single
    date, or none) makes the Filter stage show its warning and pass the
    full table on; a pair is applied as a filter whatever the order of its
    dates, with no warning, and when the start is after the end no record
    is retained. *)
Theorem date_filter_selection (date_range : list Z) (df : DataFrame) :
  "Date" ∈ columns df →
  (length date_range ≠ 2%nat →
     date_filter date_range df
     = Ok (df, ["Please select a valid start and end date."]))
  ∧ (∀ start_date end_date, date_range = [start_date; end_date] →
       date_filter date_range df
       = Ok (select (in_range start_date end_date) df, [])
       ∧ (end_date < start_date →
            rows (select (in_range start_date end_date) df) = [])).
Proof.
  intros Hd. split.
  - apply date_filter_not_pair.
  - intros s e ->. split; [by apply date_filter_pair|].
    intros Hlt. run_result. induction (rows df) as [|r l IH]; [done|].
    simpl. rewrite IH. unfold in_range.
    destruct (cell_at "Date" r) as [| | |t|]; try done.
    destruct (s <=? t) eqn:E1, (t <=? e) eqn:E2; try done. lia.
Qed.

(** C3 (amended): the empty keyword leaves the table as it is; a
    non-empty keyword without special characters of regular expressions
    keeps, among the records that have a post text, exactly those whose
    text contains the keyword up to letter case, in their order. *)
Theorem keyword_filter_literal (keyword : text) (df : DataFrame) :
  "Post" ∈ columns df →
  keyword_filter [] df = Ok df
  ∧ (keyword ≠ [] → Forall (λ c, Re.special c = false) keyword →
       ∃ df', keyword_filter keyword df = Ok df'
         ∧ columns df' = columns df
         ∧ List.filter has_post (rows df')
           = List.filter
               (λ r, has_post r && contains_ci keyword (py_str (cell_at "Post" r)))
               (rows df)
         ∧ ∀ s, contains_ci keyword s = true ↔ occurs_ci keyword s).
Proof.
  intros Hp. split; [done|]. intros Hk Hlit.
  rewrite keyword_filter_nonempty by done.
  unfold re_compile. rewrite parse_literal by done. run_result.
  eexists. split_and!; [done | done | | intros s; apply contains_ci_spec].
  run_result. rewrite filter_andb. apply List.filter_ext.
  intros r. rewrite search_literal. apply andb_comm.
Qed.

End FilterProperties.

(* ===================================================================== *)
(** * Platform and person *)
(* ===================================================================== *)

Section InfoProperties.
Context {lib : PyLib}.

Lemma filter_all_null (l : list cell) :
  Forall (λ x, x = CNull) l → List.filter (λ x, negb (is_null x)) l = [].
Proof. induction 1 as [|x l -> _ IH]; [done|]. simpl. done. Qed.

(** C9: the default value is returned only when the column is absent.
    When the column is present the value is its first non-null cell, and
    when it is present without any non-null cell (also when the table has
    no rows) the extraction fails with [IndexError]. *)
Theorem info_field_default_only_when_absent
    (c : string) (dflt : text) (df : DataFrame) :
  (c ∉ columns df → info_field c dflt df = Ok (CStr dflt))
  ∧ (c ∈ columns df → Forall (λ r, cell_at c r = CNull) (rows df) →
       info_field c dflt df = Err IndexError)
  ∧ (c ∈ columns df →
       ∀ before r after, rows df = before ++ r :: after →
         Forall (λ r', cell_at c r' = CNull) before → cell_at c r ≠ CNull →
         info_field c dflt df = Ok (cell_at c r)).
Proof.
  unfold info_field. split_and!.
  - intros Hc. by rewrite bool_decide_eq_false_2.
  - intros Hc Hnull. rewrite bool_decide_eq_true_2, df_col_present by done.
    run_result. rewrite filter_all_null; [done|].
    by apply Forall_fmap.
  - intros Hc before r after Hrows Hnull Hr.
    rewrite bool_decide_eq_true_2, df_col_present by done. run_result.
    rewrite Hrows, fmap_app, List.filter_app, filter_all_null
      by by apply Forall_fmap.
    simpl. by destruct (cell_at c r).
Qed.

End InfoProperties.

(* ===================================================================== *)
(** * Derived fields *)
(* ===================================================================== *)

Section DeriveProperties.
Context {lib : PyLib}.

(** C10: the short label is the first 25 characters of the stringified
    post followed by ["..."], whatever the length of the post: a post of
    25 characters or fewer appears in full with the marker appended (so
    not verbatim), and a missing post gives ["nan..."]. *)
Theorem short_post_always_ellipsis (post : cell) :
  short_post post = take 25 (py_str post) ++ txt "..."
  ∧ (length (py_str post) ≤ 25 →
       short_post post = py_str post ++ txt "..."
       ∧ short_post post ≠ py_str post)%nat
  ∧ short_post CNull = txt "nan...".
Proof.
  unfold short_post, slice0. split_and!; [done | | done].
  intros Hlen. rewrite take_ge by done. split; [done|].
  intros Heq. apply (f_equal length) in Heq.
  rewrite length_app in Heq. simpl in Heq. lia.
Qed.

Lemma existsb_contains (keywords : list text) (s : text) :
  existsb (λ k, contains k s) keywords = true
  ↔ ∃ k, k ∈ keywords ∧ ∃ pre suf, s = pre ++ k ++ suf.
Proof.
  rewrite existsb_exists. split.
  - intros (k & Hin & Hk). exists k. split; [by apply list_elem_of_In|].
    by apply contains_spec.
  - intros (k & Hin & Hk). exists k. split; [by apply list_elem_of_In|].
    by apply contains_spec.
Qed.

Lemma classify_with_educational (keywords : list text) (post : cell) :
  Forall (λ k, lower k = k) keywords →
  classify_with keywords post = Educational
  ↔ ∃ k, k ∈ keywords ∧ occurs_ci k (py_str post).
Proof.
  intros Hlow. unfold classify_with.
  destruct (existsb _ keywords) eqn:E.
  - split; [intros _|done]. apply existsb_contains in E as (k & Hin & Hk).
    exists k. split; [done|]. apply contains_ci_spec. unfold contains_ci.
    rewrite Forall_forall in Hlow. rewrite (Hlow k Hin).
    by apply contains_spec.
  - split; [done|]. intros (k & Hin & Hk).
    assert (existsb (λ k, contains k (lower (py_str post))) keywords = true)
      as E'; [|congruence].
    apply existsb_contains. exists k. split; [done|].
    apply contains_spec. apply contains_ci_spec in Hk. unfold contains_ci in Hk.
    rewrite Forall_forall in Hlow. by rewrite (Hlow k Hin) in Hk.
Qed.

Lemma classify_with_perm (keywords keywords' : list text) (post : cell) :
  keywords ≡ₚ keywords' →
  classify_with keywords post = classify_with keywords' post.
Proof.
  intros Hperm. unfold classify_with.
  assert (existsb (λ k, contains k (lower (py_str post))) keywords
          = existsb (λ k, contains k (lower (py_str post))) keywords') as ->;
    [|done].
  apply eq_true_iff_eq. rewrite !existsb_contains.
  by setoid_rewrite Hperm.
Qed.

(** C6: the post type is a function of the post text alone, with values
    [Educational] and [Other]; it is [Educational] exactly when one of the
    seven keywords occurs in the text up to letter case, and [Other]
    otherwise; listing the keywords in another order gives the same
    classification; a post containing "Free Tutorial" is Educational and
    the post "Check out our product" is Other. *)
Theorem classify_post_type_spec (post : cell) :
  (classify_post_type post = Educational
     ↔ ∃ k, k ∈ educational_keywords ∧ occurs_ci k (py_str post))
  ∧ (classify_post_type post = Other
     ↔ ¬ ∃ k, k ∈ educational_keywords ∧ occurs_ci k (py_str post))
  ∧ (∀ keywords, keywords ≡ₚ educational_keywords →
       classify_with keywords post = classify_post_type post)
  ∧ (∀ pre suf,
       classify_post_type (CStr (pre ++ txt "Free Tutorial" ++ suf)) = Educational)
  ∧ classify_post_type (CStr (txt "Check out our product")) = Other.
Proof.
  assert (Forall (λ k, lower k = k) educational_keywords) as Hlow.
  { repeat constructor. }
  pose proof (classify_with_educational educational_keywords post Hlow) as He.
  fold classify_post_type in He. split_and!.
  - done.
  - rewrite <- He. by destruct (classify_post_type post).
  - intros keywords Hperm. by apply classify_with_perm.
  - intros pre suf.
    apply (classify_with_educational educational_keywords _ Hlow).
    exists (txt "tutorial"). split.
    + apply list_elem_of_In. simpl. tauto.
    + exists (pre ++ txt "Free "), (txt "Tutorial"), suf. split; [|done].
      simpl. by rewrite <- app_assoc.
  - done.
Qed.

End DeriveProperties.

(* ===================================================================== *)
(** * Hashtags *)
(* ===================================================================== *)

Lemma word_run_split (s : text) :
  s = word_run s ++ drop (length (word_run s)) s.
Proof.
  induction s as [|c s IH]; [done|]. simpl.
  destruct (is_word c); [|done]. simpl. by rewrite <- IH.
Qed.

Lemma word_run_all_word (s : text) : Forall (λ c, is_word c = true) (word_run s).
Proof.
  induction s as [|c s IH]; simpl; [done|].
  destruct (is_word c) eqn:E; [by constructor | done].
Qed.

Lemma word_run_maximal (s : text) : word_ends (drop (length (word_run s)) s).
Proof.
  induction s as [|c s IH]; simpl; [done|].
  destruct (is_word c) eqn:E; simpl; [done|].
  intros d suf Hd. by injection Hd as <- _.
Qed.

Lemma word_run_app (w rest : text) :
  Forall (λ c, is_word c = true) w → word_ends rest → word_run (w ++ rest) = w.
Proof.
  intros Hw Hrest. induction Hw as [|c w Hc _ IH]; simpl.
  - destruct rest as [|d rest]; [done|]. simpl. by rewrite (Hrest d rest).
  - by rewrite Hc, IH.
Qed.

Lemma word_run_nil_iff (s : text) : word_run s = [] ↔ word_ends s.
Proof.
  destruct s as [|c s]; simpl.
  - split; [|done]. by intros _ d suf.
  - destruct (is_word c) eqn:E; split; try done.
    + intros Hend. rewrite (Hend c s) in E; done.
    + intros _ d suf Hd. by injection Hd as <- _.
Qed.

Lemma findall_from_drop (n : nat) (s : text) :
  findall_from n s = findall_from 0 (drop n s).
Proof.
  revert s. induction n as [|n IH]; intros s; [by rewrite drop_0|].
  destruct s as [|c s]; [done|]. simpl. apply IH.
Qed.

Lemma findall_cons (c : ascii) (s : text) :
  findall_hashtags (c :: s)
  = match hashtag_at (c :: s) with
    | Some tag => tag :: findall_hashtags (drop (length tag - 1) s)
    | None => findall_hashtags s
    end.
Proof.
  unfold findall_hashtags. cbn [findall_from].
  destruct (hashtag_at (c :: s)); [|done]. by rewrite findall_from_drop.
Qed.

Lemma hashtag_at_spec (c : ascii) (s : text) :
  hashtag_at (c :: s)
  = if bool_decide (c = "#"%char) then
      match word_run s with
      | [] => None
      | w => Some (c :: w)
      end
    else None.
Proof. done. Qed.

Lemma hashtag_at_none (c : ascii) (s : text) :
  hashtag_at (c :: s) = None → c = "#"%char → word_ends s.
Proof.
  rewrite hashtag_at_spec. intros Hnone ->.
  rewrite bool_decide_eq_true_2 in Hnone by done.
  apply word_run_nil_iff. by destruct (word_run s).
Qed.

Lemma no_hashtag_nil : no_hashtag [].
Proof. intros pre c suf Hg. by destruct pre. Qed.

Lemma no_hashtag_cons (c : ascii) (g : text) :
  (c = "#"%char → word_ends g) → no_hashtag g → no_hashtag (c :: g).
Proof.
  intros Hc Hg pre d suf Heq. destruct pre as [|c' pre].
  - injection Heq as -> ->. by apply (Hc eq_refl d suf).
  - injection Heq as -> ->. by apply (Hg pre d suf).
Qed.

Lemma no_hashtag_tail (c : ascii) (g : text) :
  no_hashtag (c :: g) → no_hashtag g.
Proof. intros Hg pre d suf ->. by apply (Hg (c :: pre) d suf). Qed.

Lemma no_hashtag_head (g : text) : no_hashtag ("#"%char :: g) → word_ends g.
Proof. intros Hg d suf ->. by apply (Hg [] d suf). Qed.

Lemma split_cons_gap (c : ascii) (s : text) (tags : list text) :
  hashtag_at (c :: s) = None → hashtag_split s tags →
  hashtag_split (c :: s) tags.
Proof.
  intros Hnone Hsplit. pose proof (hashtag_at_none c s Hnone) as Hend.
  destruct Hsplit as [g Hg | g w rest tags Hg Hw Hall Hrest Hsplit].
  - apply split_done. by apply no_hashtag_cons.
  - change (hashtag_split ((c :: g) ++ "#"%char :: w ++ rest)
              (("#"%char :: w) :: tags)).
    apply split_tag; try done. apply no_hashtag_cons; [|done].
    intros Hc d suf ->. by apply (Hend Hc d (suf ++ "#"%char :: w ++ rest)).
Qed.

Lemma findall_split_bounded (n : nat) (s : text) :
  (length s ≤ n)%nat → hashtag_split s (findall_hashtags s).
Proof.
  revert s. induction n as [|n IH]; intros s Hlen.
  - destruct s; [|simpl in Hlen; lia]. apply split_done, no_hashtag_nil.
  - destruct s as [|c s]; [apply split_done, no_hashtag_nil|].
    simpl in Hlen. rewrite findall_cons.
    destruct (hashtag_at (c :: s)) as [tag|] eqn:Eat.
    + rewrite hashtag_at_spec in Eat. case_bool_decide as Hc; [|done].
      subst c. destruct (word_run s) as [|d w] eqn:Ew; [done|].
      injection Eat as <-.
      replace (length ("#"%char :: d :: w) - 1)%nat with (length (d :: w))
        by (simpl; lia).
      rewrite <- Ew.
      pose proof (word_run_split s) as Hs.
      set (rest := drop (length (word_run s)) s) in *.
      rewrite Hs at 1.
      apply (split_tag [] (word_run s) rest).
      * apply no_hashtag_nil.
      * by rewrite Ew.
      * apply word_run_all_word.
      * apply word_run_maximal.
      * apply IH. unfold rest. rewrite length_drop. lia.
    + apply split_cons_gap; [done|]. apply IH. lia.
Qed.

Lemma findall_no_hashtag (g : text) : no_hashtag g → findall_hashtags g = [].
Proof.
  induction g as [|c g IH]; intros Hg; [done|].
  rewrite findall_cons, hashtag_at_spec. case_bool_decide as Hc.
  - subst c. pose proof (no_hashtag_head _ Hg) as Hrun.
    apply word_run_nil_iff in Hrun. rewrite Hrun.
    by apply IH, (no_hashtag_tail "#"%char).
  - by apply IH, (no_hashtag_tail c).
Qed.

Lemma findall_gap_tag (g w rest : text) :
  no_hashtag g → w ≠ [] → Forall (λ c, is_word c = true) w → word_ends rest →
  findall_hashtags (g ++ "#"%char :: w ++ rest)
  = ("#"%char :: w) :: findall_hashtags rest.
Proof.
  intros Hg Hw Hall Hrest. induction g as [|c g IH].
  - cbn [app]. rewrite findall_cons, hashtag_at_spec.
    rewrite bool_decide_eq_true_2 by done. rewrite word_run_app by done.
    destruct w as [|d w]; [done|].
    replace (length ("#"%char :: d :: w) - 1)%nat with (length (d :: w))
      by (simpl; lia).
    by rewrite drop_app_length.
  - cbn [app]. rewrite findall_cons, hashtag_at_spec.
    pose proof (no_hashtag_tail _ _ Hg) as Hg'. case_bool_decide as Hc.
    + subst c. assert (word_run (g ++ "#"%char :: w ++ rest) = []) as ->.
      { apply word_run_nil_iff. destruct g as [|d g].
        - intros d suf Hd. by injection Hd as <- _.
        - intros d' suf Hd. injection Hd as <- _.
          by apply (Hg [] d g). }
      by apply IH.
    + by apply IH.
Qed.

Section HashtagProperties.
Context {lib : PyLib}.

(** C7: the hashtags of a record are the matches of ["#"] followed by one
    or more word characters in its stringified post text, in the order in
    which they appear, one entry for each occurrence (a repeated hashtag
    is listed each time); the field is always a list, empty when there is
    no match, as for a missing post. *)
Theorem hashtags_in_order_of_appearance (post : cell) :
  hashtag_split (py_str post) (hashtags post)
  ∧ (∀ tags, hashtag_split (py_str post) tags → tags = hashtags post)
  ∧ hashtags (CStr (txt "New #AI course, #tips and #AI again #")) 
    = [txt "#AI"; txt "#tips"; txt "#AI"]
  ∧ hashtags CNull = [].
Proof.
  unfold hashtags. split_and!; [| |done|done].
  - by apply (findall_split_bounded (length (py_str post))).
  - generalize (py_str post). intros s tags Hsplit.
    induction Hsplit as [g Hg | g w rest tags Hg Hw Hall Hrest _ IH].
    + by rewrite findall_no_hashtag.
    + rewrite findall_gap_tag by done. by rewrite IH.
Qed.

End HashtagProperties.

(* ===================================================================== *)
(** * Normalization *)
(* ===================================================================== *)

Lemma cell_at_insert_eq (c : string) (v : cell) (i : Z) (m : gmap string cell) :
  cell_at c (i, <[c := v]> m) = v.
Proof. unfold cell_at. simpl. by rewrite lookup_insert_eq. Qed.

Lemma cell_at_insert_ne (c c' : string) (v : cell) (i : Z) (m : gmap string cell) :
  c ≠ c' → cell_at c' (i, <[c := v]> m) = cell_at c' (i, m).
Proof. intros Hne. unfold cell_at. simpl. by rewrite lookup_insert_ne. Qed.

Lemma assign_columns (c : string) (f : row → cell) (df : DataFrame) :
  c ∈ columns df → columns (assign c f df) = columns df.
Proof. intros Hc. unfold assign. simpl. by rewrite bool_decide_eq_true_2. Qed.

Lemma assign_keeps_column (c c' : string) (f : row → cell) (df : DataFrame) :
  c' ∈ columns df → c' ∈ columns (assign c f df).
Proof.
  intros Hc. unfold assign. simpl. case_bool_decide; [done|].
  apply elem_of_app. by left.
Qed.

Lemma assign_adds_column (c : string) (f : row → cell) (df : DataFrame) :
  c ∈ columns (assign c f df).
Proof.
  unfold assign. simpl. case_bool_decide; [done|].
  apply elem_of_app. right. apply list_elem_of_singleton. done.
Qed.

Lemma assign_rows_nil (c : string) (f : row → cell) (df : DataFrame) :
  rows df = [] → rows (assign c f df) = [].
Proof. intros Hr. unfold assign. simpl. by rewrite Hr. Qed.

Ltac cell_lookup :=
  repeat first
    [ rewrite cell_at_insert_eq
    | rewrite cell_at_insert_ne by done ].

Ltac columns_assign :=
  repeat (rewrite assign_columns by (repeat apply assign_keeps_column; done)).

Section NormalizeProperties.
Context {lib : PyLib}.

Lemma to_numeric_present (c : string) (df : DataFrame) :
  c ∈ columns df →
  to_numeric c df = Ok (assign c (λ r, to_numeric_cell c (cell_at c r)) df).
Proof. intros Hc. unfold to_numeric. by rewrite df_col_present. Qed.

Lemma to_datetime_present (c : string) (df : DataFrame) :
  c ∈ columns df →
  to_datetime c df = Ok (assign c (λ r, to_datetime_cell (cell_at c r)) df).
Proof. intros Hc. unfold to_datetime. by rewrite df_col_present. Qed.

Lemma coerce_metrics_present (df : DataFrame) :
  "Likes" ∈ columns df → "Comments" ∈ columns df →
  "Shares" ∈ columns df → "Clicks" ∈ columns df →
  coerce_metrics df
  = Ok (assign "Total Engagement"
          (λ r, add_cells (add_cells (cell_at "Likes" r) (cell_at "Comments" r))
                          (cell_at "Shares" r))
       (assign "Clicks" (λ r, to_numeric_cell "Clicks" (cell_at "Clicks" r))
       (assign "Shares" (λ r, to_numeric_cell "Shares" (cell_at "Shares" r))
       (assign "Comments" (λ r, to_numeric_cell "Comments" (cell_at "Comments" r))
       (assign "Likes" (λ r, to_numeric_cell "Likes" (cell_at "Likes" r)) df))))).
Proof.
  intros Hl Hc Hs Hk. unfold coerce_metrics.
  rewrite to_numeric_present by done. run_result.
  rewrite to_numeric_present by by apply assign_keeps_column. run_result.
  rewrite to_numeric_present by by do 2 apply assign_keeps_column. run_result.
  rewrite to_numeric_present by by do 3 apply assign_keeps_column. run_result.
  rewrite !df_col_present by by do 4 apply assign_keeps_column.
  done.
Qed.

Lemma to_numeric_cell_numeric (c : string) (x : cell) :
  numeric_or_null (to_numeric_cell c x) = true.
Proof.
  unfold to_numeric_cell.
  destruct (datetime64 c), x as [|s|q|t|l]; simpl; try done.
  by destruct (parse_number s).
Qed.

Lemma to_datetime_cell_date (x : cell) :
  date_or_null (to_datetime_cell x) = true.
Proof.
  destruct x as [|s|q|t|l]; simpl; try done.
  - by destruct (parse_date s).
  - by destruct (number_to_date q).
Qed.

(** C5 (amended): normalization raises [KeyError] on a table that lacks
    one of the columns it coerces.  On a table that has them (each name
    once), it returns a table and raises nothing; the table has the same
    records, in which every cell of Impressions, Likes, Comments, Shares
    and Clicks is a number or null and every cell of Date is a date or
    null.  A number stays as it is, and so does a date in Date.  In a
    numeric column that was not read as a column of dates, a missing cell
    and any cell that does not read as a number becomes null; in one that
    was, no cell becomes null: a date becomes its nanoseconds and a missing
    date the least 64-bit integer.  In Date a missing cell and any cell
    that does not read as a date becomes null. *)
Theorem normalize_outcomes (df : DataFrame) :
  NoDup (columns df) →
  ("Impressions" ∉ columns df → load df = Err (KeyError "Impressions"))
  ∧ ("Impressions" ∈ columns df → "Date" ∉ columns df →
       load df = Err (KeyError "Date"))
  ∧ (Exists (λ c, c ∉ columns df) ["Likes"; "Comments"; "Shares"; "Clicks"] →
       ∃ c, c ∈ ["Likes"; "Comments"; "Shares"; "Clicks"] ∧ (c ∉ columns df)
            ∧ coerce_metrics df = Err (KeyError c))
  ∧ ("Impressions" ∈ columns df → "Date" ∈ columns df →
       ∃ df', load df = Ok df'
         ∧ columns df' = columns df
         ∧ Forall2 (λ r r' : row,
              r'.1 = r.1
              ∧ cell_at "Impressions" r'
                = to_numeric_cell "Impressions" (cell_at "Impressions" r)
              ∧ cell_at "Date" r' = to_datetime_cell (cell_at "Date" r)
              ∧ ∀ c, c ≠ "Impressions" → c ≠ "Date" → cell_at c r' = cell_at c r)
             (rows df) (rows df'))
  ∧ (Forall (λ c, c ∈ columns df) ["Likes"; "Comments"; "Shares"; "Clicks"] →
       ∃ df', coerce_metrics df = Ok df'
         ∧ Forall2 (λ r r' : row,
              r'.1 = r.1
              ∧ (∀ c, c ∈ ["Likes"; "Comments"; "Shares"; "Clicks"] →
                   cell_at c r' = to_numeric_cell c (cell_at c r))
              ∧ ∀ c, c ∉ ["Likes"; "Comments"; "Shares"; "Clicks";
                          "Total Engagement"] →
                   cell_at c r' = cell_at c r)
             (rows df) (rows df'))
  ∧ (∀ c x, numeric_or_null (to_numeric_cell c x) = true
            ∧ date_or_null (to_datetime_cell x) = true)
  ∧ (∀ c q, to_numeric_cell c (CNum q) = CNum q)
  ∧ (∀ t, to_datetime_cell (CDate t) = CDate t)
  ∧ to_datetime_cell CNull = CNull
  ∧ (∀ s, parse_date s = None → to_datetime_cell (CStr s) = CNull)
  ∧ (∀ c, datetime64 c = false →
       to_numeric_cell c CNull = CNull
       ∧ (∀ s, to_numeric_cell c (CStr s)
               = match parse_number s with Some q => CNum q | None => CNull end)
       ∧ ∀ t, to_numeric_cell c (CDate t) = CNull)
  ∧ (∀ c, datetime64 c = true →
       to_numeric_cell c CNull = CNum (inject_Z int64_min)
       ∧ ∀ t, to_numeric_cell c (CDate t) = CNum (inject_Z t)).
Proof.
  intros _. split_and!; try done.
  - intros Hi. unfold load, to_numeric. by rewrite df_col_absent.
  - intros Hi Hd. unfold load. rewrite to_numeric_present by done. run_result.
    unfold to_datetime. rewrite df_col_absent; [done|].
    unfold assign. simpl. by rewrite bool_decide_eq_true_2.
  - intros Hex. unfold coerce_metrics.
    destruct (decide ("Likes" ∈ columns df)) as [Hl|Hl].
    2: { exists "Likes". split; [apply list_elem_of_In; simpl; tauto|].
         split; [done|]. unfold to_numeric. by rewrite df_col_absent. }
    rewrite to_numeric_present by done. run_result.
    destruct (decide ("Comments" ∈ columns df)) as [Hc|Hc].
    2: { exists "Comments". split; [apply list_elem_of_In; simpl; tauto|].
         split; [done|]. unfold to_numeric. rewrite df_col_absent; [done|].
         by rewrite assign_columns. }
    rewrite to_numeric_present by by apply assign_keeps_column. run_result.
    destruct (decide ("Shares" ∈ columns df)) as [Hs|Hs].
    2: { exists "Shares". split; [apply list_elem_of_In; simpl; tauto|].
         split; [done|]. unfold to_numeric. rewrite df_col_absent; [done|].
         by columns_assign. }
    rewrite to_numeric_present by by do 2 apply assign_keeps_column. run_result.
    destruct (decide ("Clicks" ∈ columns df)) as [Hk|Hk].
    2: { exists "Clicks". split; [apply list_elem_of_In; simpl; tauto|].
         split; [done|]. unfold to_numeric. rewrite df_col_absent; [done|].
         by columns_assign. }
    rewrite !Exists_cons, Exists_nil in Hex. tauto.
  - intros Hi Hd. unfold load. rewrite to_numeric_present by done. run_result.
    rewrite to_datetime_present by by apply assign_keeps_column.
    eexists. split; [done|]. split.
    + by rewrite !assign_columns by by rewrite ?assign_columns.
    + unfold assign. simpl. rewrite <- list_fmap_compose.
      apply Forall2_fmap_r, Forall_Forall2_diag, Forall_forall.
      intros [i m] _. simpl. split_and!; [done | | | ].
      * by cell_lookup.
      * by cell_lookup.
      * intros c ? ?. by cell_lookup.
  - intros Hcols. rewrite !Forall_cons in Hcols.
    destruct Hcols as (Hl & Hc & Hs & Hk & _).
    rewrite coerce_metrics_present by done. eexists. split; [done|].
    unfold assign. simpl. rewrite <- !list_fmap_compose.
    apply Forall2_fmap_r, Forall_Forall2_diag, Forall_forall.
    intros [i m] _. simpl. split_and!; [done | | ].
    + intros c Hin. apply list_elem_of_In in Hin. simpl in Hin.
      destruct Hin as [<-|[<-|[<-|[<-|[]]]]]; by cell_lookup.
    + intros c Hnot. rewrite !not_elem_of_cons in Hnot.
      destruct Hnot as (? & ? & ? & ? & ? & _). by cell_lookup.
  - intros c x. split; [apply to_numeric_cell_numeric | apply to_datetime_cell_date].
  - intros c q. unfold to_numeric_cell. by destruct (datetime64 c).
  - intros s Hs'. simpl. by rewrite Hs'.
  - intros c Hc. unfold to_numeric_cell. by rewrite Hc.
  - intros c Hc. unfold to_numeric_cell. by rewrite Hc.
Qed.

End NormalizeProperties.

(* ===================================================================== *)
(** * Aggregation *)
(* ===================================================================== *)

Lemma Qltb_true (x y : Q) : Qltb x y = true ↔ (x < y)%Q.
Proof.
  unfold Qltb. rewrite negb_true_iff, <- not_true_iff_false, Qle_bool_iff.
  split; [apply Qnot_le_lt | apply Qlt_not_le].
Qed.

Lemma Qltb_false (x y : Q) : Qltb x y = false ↔ (y <= x)%Q.
Proof. unfold Qltb. by rewrite negb_false_iff, Qle_bool_iff. Qed.

(** A positive double is not zero: the guard of lines 67 and 68 keeps
    the division away from a zero divisor. *)
Lemma positive_not_zero (b : float) :
  (0 <? b)%float = true → (b =? 0)%float = false.
Proof.
  rewrite FloatAxioms.ltb_spec, FloatAxioms.eqb_spec.
  change (Prim2SF 0) with (S754_zero false).
  destruct (Prim2SF b) as [s|s| |s m e]; try done; destruct s; done.
Qed.

Lemma py_div_nonzero (a b : float) :
  (0 <? b)%float = true → py_div a b = Ok (a / b)%float.
Proof. intros Hb. unfold py_div. by rewrite positive_not_zero. Qed.

Lemma py_div_zero (a b : float) :
  py_div a b = Err ZeroDivisionError ↔ (b =? 0)%float = true.
Proof. unfold py_div. by destruct (b =? 0)%float. Qed.

Lemma float_of_Q_zero (q : Q) : (q == 0)%Q → float_of_Q q = 0%float.
Proof.
  intros Hq. unfold float_of_Q. apply Qred_complete in Hq. by rewrite Hq.
Qed.

Section AggregateProperties.
Context {lib : PyLib}.

Lemma engagement_rate_of_total (likes comments shares impressions : Q) :
  engagement_rate_of likes comments shares impressions
  = Ok (if (0 <? float_of_Q impressions)%float
        then py_round2 (float_of_Q (likes + comments + shares)
                        / float_of_Q impressions * 100)
        else 0%float).
Proof.
  unfold engagement_rate_of. cbv zeta.
  destruct (0 <? float_of_Q impressions)%float eqn:E; [|done].
  by rewrite py_div_nonzero.
Qed.

Lemma ctr_of_total (clicks impressions : Q) :
  ctr_of clicks impressions
  = Ok (if (0 <? float_of_Q impressions)%float
        then py_round2 (float_of_Q clicks / float_of_Q impressions * 100)
        else 0%float).
Proof.
  unfold ctr_of. cbv zeta.
  destruct (0 <? float_of_Q impressions)%float eqn:E; [|done].
  by rewrite py_div_nonzero.
Qed.

Lemma aggregate_present (df : DataFrame) :
  Forall (λ c, c ∈ columns df) metric_columns →
  aggregate df
  = (best ← idxmax "Likes" df;
     top ← loc best df;
     best_total ← idxmax "Total Engagement" df;
     top_total ← loc best_total df;
     mret (mkSummary (total "Likes" df) (total "Comments" df)
             (total "Shares" df) (total "Clicks" df) (total "Impressions" df)
             (if (0 <? float_of_Q (total "Impressions" df))%float
              then py_round2 (float_of_Q (total "Likes" df + total "Comments" df
                                          + total "Shares" df)
                              / float_of_Q (total "Impressions" df) * 100)
              else 0%float)
             (if (0 <? float_of_Q (total "Impressions" df))%float
              then py_round2 (float_of_Q (total "Clicks" df)
                              / float_of_Q (total "Impressions" df) * 100)
              else 0%float)
             (py_round2 <$> mean_cells (cell_at "Total Engagement" <$> rows df))
             top top_total)).
Proof.
  intros Hcols. unfold metric_columns in Hcols.
  rewrite !Forall_cons in Hcols.
  destruct Hcols as (? & ? & ? & ? & ? & ? & _).
  unfold aggregate. rewrite !df_col_present by done. run_result.
  rewrite engagement_rate_of_total, ctr_of_total. run_result. done.
Qed.

Lemma aggregate_absent (df : DataFrame) :
  ¬ Forall (λ c, c ∈ columns df) metric_columns →
  ∃ c, aggregate df = Err (KeyError c).
Proof.
  intros Hcols. unfold metric_columns in Hcols.
  rewrite !Forall_cons in Hcols. unfold aggregate.
  destruct (decide ("Likes" ∈ columns df));
    [rewrite (df_col_present "Likes") by done
    |rewrite (df_col_absent "Likes") by done; by eexists].
  destruct (decide ("Comments" ∈ columns df));
    [rewrite (df_col_present "Comments") by done
    |rewrite (df_col_absent "Comments") by done; by eexists].
  destruct (decide ("Shares" ∈ columns df));
    [rewrite (df_col_present "Shares") by done
    |rewrite (df_col_absent "Shares") by done; by eexists].
  destruct (decide ("Clicks" ∈ columns df));
    [rewrite (df_col_present "Clicks") by done
    |rewrite (df_col_absent "Clicks") by done; by eexists].
  destruct (decide ("Impressions" ∈ columns df));
    [rewrite (df_col_present "Impressions") by done
    |rewrite (df_col_absent "Impressions") by done; by eexists].
  run_result. rewrite engagement_rate_of_total, ctr_of_total. run_result.
  destruct (decide ("Total Engagement" ∈ columns df));
    [|rewrite (df_col_absent "Total Engagement") by done; by eexists].
  destruct Hcols. by rewrite Forall_nil.
Qed.

Lemma idxmax_no_rows (c : string) (df : DataFrame) :
  c ∈ columns df → rows df = [] → idxmax c df = Err argmax_of_empty.
Proof.
  intros Hc Hrows. unfold idxmax. rewrite df_col_present by done.
  run_result. by rewrite Hrows.
Qed.

Lemma idxmax_no_division (c : string) (df : DataFrame) (e : exn) :
  idxmax c df = Err e → e ≠ ZeroDivisionError.
Proof.
  unfold idxmax, df_col. case_bool_decide; run_result; [|by intros [= <-]].
  destruct (rows df); [by intros [= <-]|]. by destruct (omap _ _).
Qed.

Lemma loc_no_division (label : option Z) (df : DataFrame) (e : exn) :
  loc label df = Err e → e ≠ ZeroDivisionError.
Proof.
  unfold loc. destruct label; [|by intros [= <-]].
  destruct (List.find _ _); [done|]. by intros [= <-].
Qed.

Lemma aggregate_no_rows (df : DataFrame) :
  Forall (λ c, c ∈ columns df) metric_columns → rows df = [] →
  aggregate df = Err argmax_of_empty.
Proof.
  intros Hcols Hrows. rewrite aggregate_present by done.
  rewrite (idxmax_no_rows "Likes"); [reflexivity| |done].
  unfold metric_columns in Hcols. by apply Forall_cons in Hcols as [? _].
Qed.

(** C1 (amended): when no record is left, the metric coercion still
    returns a table (without records); on it every total is 0, the two
    rates are 0 and the mean is NaN, computed without an exception, and
    then [idxmax] on the empty Likes column raises [ValueError]: the
    aggregation yields this exception and no summary.  Nothing catches
    it: a run whose filters keep no record ends in that [ValueError]. *)
Theorem aggregate_empty_table (df : DataFrame) :
  rows df = [] →
  "Likes" ∈ columns df → "Comments" ∈ columns df → "Shares" ∈ columns df →
  "Clicks" ∈ columns df → "Impressions" ∈ columns df →
  (∃ df', coerce_metrics df = Ok df' ∧ rows df' = []
          ∧ Forall (λ c, total c df' = 0%Q) metric_columns
          ∧ engagement_rate_of (total "Likes" df') (total "Comments" df')
              (total "Shares" df') (total "Impressions" df') = Ok 0%float
          ∧ ctr_of (total "Clicks" df') (total "Impressions" df') = Ok 0%float
          ∧ mean_cells (cell_at "Total Engagement" <$> rows df') = None
          ∧ idxmax "Likes" df' = Err argmax_of_empty
          ∧ aggregate df' = Err argmax_of_empty)
  ∧ ∀ upload date_range keyword loaded platform person dated warnings,
      load upload = Ok loaded →
      info_field "Platform" (txt "Unknown") loaded = Ok platform →
      info_field "Person" (txt "N/A") loaded = Ok person →
      date_filter date_range loaded = Ok (dated, warnings) →
      keyword_filter keyword dated = Ok df →
      dashboard upload date_range keyword = Err argmax_of_empty.
Proof.
  intros Hrows Hl Hc Hs Hk Hi.
  assert (rows (assign "Total Engagement"
            (λ r, add_cells (add_cells (cell_at "Likes" r) (cell_at "Comments" r))
                            (cell_at "Shares" r))
          (assign "Clicks" (λ r, to_numeric_cell "Clicks" (cell_at "Clicks" r))
          (assign "Shares" (λ r, to_numeric_cell "Shares" (cell_at "Shares" r))
          (assign "Comments" (λ r, to_numeric_cell "Comments" (cell_at "Comments" r))
          (assign "Likes" (λ r, to_numeric_cell "Likes" (cell_at "Likes" r)) df))))) = [])
    as Hnone by by do 5 apply assign_rows_nil.
  assert (aggregate (assign "Total Engagement"
            (λ r, add_cells (add_cells (cell_at "Likes" r) (cell_at "Comments" r))
                            (cell_at "Shares" r))
          (assign "Clicks" (λ r, to_numeric_cell "Clicks" (cell_at "Clicks" r))
          (assign "Shares" (λ r, to_numeric_cell "Shares" (cell_at "Shares" r))
          (assign "Comments" (λ r, to_numeric_cell "Comments" (cell_at "Comments" r))
          (assign "Likes" (λ r, to_numeric_cell "Likes" (cell_at "Likes" r)) df)))))
          = Err argmax_of_empty) as Hagg.
  { apply aggregate_no_rows; [|done].
    unfold metric_columns. rewrite !Forall_cons. split_and!; try done.
    1-4: by do 5 apply assign_keeps_column.
    + by do 5 apply assign_keeps_column.
    + apply assign_adds_column. }
  split.
  - rewrite coerce_metrics_present by done.
    eexists. split; [done|]. split; [done|]. split_and!; [| | | | |done].
    + unfold total. rewrite Hnone. by repeat constructor.
    + unfold total. rewrite Hnone. vm_compute. reflexivity.
    + unfold total. rewrite Hnone. vm_compute. reflexivity.
    + by rewrite Hnone.
    + apply idxmax_no_rows; [by do 5 apply assign_keeps_column | done].
  - intros upload date_range keyword loaded platform person dated warnings
      Hload Hplat Hpers Hdate Hkey.
    unfold dashboard. rewrite Hload. run_result. rewrite Hplat. run_result.
    rewrite Hpers. run_result. rewrite Hdate. run_result.
    rewrite Hkey. run_result. rewrite coerce_metrics_present by done.
    run_result. by rewrite Hagg.
Qed.

(** C4 (amended): on a table whose metric cells hold whole numbers with
    absolute values adding up to less than 2^53, when the aggregation
    returns a summary and the total of impressions is positive, the
    engagement rate is the double-precision value of
    ((likes + comments + shares) / impressions) * 100 and the
    click-through rate that of (clicks / impressions) * 100, each rounded
    to two decimals by [round]; when the total of impressions is zero, or
    not positive, both are exactly 0.  The two rates are computed for any
    totals without an error: a division raises exactly on a zero divisor,
    it is reached only with a positive one, and the aggregation never
    raises a division error. *)
Theorem rates_guarded (df : DataFrame) :
  exact_totals df = true →
  (∀ s, aggregate df = Ok s →
     ((0 <? float_of_Q (total "Impressions" df))%float = true →
        engagement_rate s
        = py_round2 (float_of_Q (total "Likes" df + total "Comments" df
                                 + total "Shares" df)
                     / float_of_Q (total "Impressions" df) * 100)
        ∧ ctr s = py_round2 (float_of_Q (total "Clicks" df)
                             / float_of_Q (total "Impressions" df) * 100))
     ∧ ((0 <? float_of_Q (total "Impressions" df))%float = false →
          engagement_rate s = 0%float ∧ ctr s = 0%float)
     ∧ ((total "Impressions" df == 0)%Q →
          engagement_rate s = 0%float ∧ ctr s = 0%float))
  ∧ (∀ likes comments shares clicks impressions : Q,
       ∃ rate click_rate,
         engagement_rate_of likes comments shares impressions = Ok rate
         ∧ ctr_of clicks impressions = Ok click_rate)
  ∧ aggregate df ≠ Err ZeroDivisionError
  ∧ (∀ a b, py_div a b = Err ZeroDivisionError ↔ (b =? 0)%float = true)
  ∧ (∀ a b, (0 <? b)%float = true → py_div a b = Ok (a / b)%float).
Proof.
  intros _. split_and!.
  - intros s Hs.
    destruct (decide (Forall (λ c, c ∈ columns df) metric_columns)) as [Hc|Hc].
    + rewrite aggregate_present in Hs by done.
      destruct (idxmax "Likes" df) as [best|]; [|done]. run_result.
      destruct (loc best df) as [top|]; [|done]. run_result.
      destruct (idxmax "Total Engagement" df) as [best'|]; [|done]. run_result.
      destruct (loc best' df) as [top'|]; [|done]. run_result.
      injection Hs as <-. simpl. split_and!.
      * intros Hpos. by rewrite Hpos.
      * intros Hneg. by rewrite Hneg.
      * intros Hzero. by rewrite (float_of_Q_zero _ Hzero).
    + apply aggregate_absent in Hc as [c Hc]. congruence.
  - intros likes comments shares clicks impressions.
    rewrite engagement_rate_of_total, ctr_of_total. by eexists _, _.
  - destruct (decide (Forall (λ c, c ∈ columns df) metric_columns)) as [Hc|Hc].
    + rewrite aggregate_present by done.
      destruct (idxmax "Likes" df) as [best|e] eqn:E1; run_result;
        [|intros [= ->]; by apply idxmax_no_division in E1].
      destruct (loc best df) as [top|e] eqn:E2; run_result;
        [|intros [= ->]; by apply loc_no_division in E2].
      destruct (idxmax "Total Engagement" df) as [best'|e] eqn:E3; run_result;
        [|intros [= ->]; by apply idxmax_no_division in E3].
      destruct (loc best' df) as [top'|e] eqn:E4; run_result;
        [done|intros [= ->]; by apply loc_no_division in E4].
    + apply aggregate_absent in Hc as [c Hc]. congruence.
  - apply py_div_zero.
  - apply py_div_nonzero.
Qed.

End AggregateProperties.

(* ===================================================================== *)
(** * The properties on concrete tables *)
(* ===================================================================== *)

Section Examples.
#[local] Existing Instance plain_lib.

(** The scenario of the specification: two posts, every date selected,
    no keyword.  The rates are 21.0 and the double nearest to 8.33. *)
Example scenario_summary :
  (λ o : Output,
     (engagement_rate (summary o), ctr (summary o),
      (top_engaging_post (summary o)).1,
      cell_at "Total Engagement" <$> rows (table o),
      cell_at "Post Type" <$> rows (table o)))
    <$> dashboard scenario [1; 2] []
  = Ok (21%float, (float_of_Z 833 / 100)%float, 1,
        [num 13; num 50],
        [CStr (txt "Educational"); CStr (txt "Other")]).
Proof. vm_compute. reflexivity. Qed.

(** C1 as stated fails: the selection from day 7 to day 9 keeps no
    record of the scenario; the table reaches the aggregation, where
    [idxmax] raises its [ValueError].  The script tests nowhere for an
    empty table and catches nothing, so the run ends on this exception
    and shows no empty state. *)
Lemma aggregate_empty_table_counterexample :
  (d ← fst <$> date_filter [7; 9] scenario; rows <$> coerce_metrics d) = Ok []
  ∧ (d ← fst <$> date_filter [7; 9] scenario; d ← coerce_metrics d; aggregate d)
    = Err (ValueError "attempt to get argmax of an empty sequence")
  ∧ dashboard scenario [7; 9] []
    = Err (ValueError "attempt to get argmax of an empty sequence").
Proof. split_and!; vm_compute; reflexivity. Qed.

Lemma aggregate_empty_table_witness :
  rows (select (in_range 7 9) scenario) = []
  ∧ dashboard scenario [7; 9] [] = Err argmax_of_empty.
Proof.
  assert (rows (select (in_range 7 9) scenario) = []) as Hrows by reflexivity.
  split; [exact Hrows|].
  destruct (aggregate_empty_table (select (in_range 7 9) scenario) Hrows)
    as [_ Hrun]; [compute_done ..|].
  apply (Hrun scenario [7; 9] [] scenario (CStr (txt "LinkedIn"))
           (CStr (txt "A. Author")) (select (in_range 7 9) scenario) []);
    vm_compute; reflexivity.
Defined.

(** C2 as stated fails: the selection from day 2 back to day 1 has its
    start after its end, yet the filter shows no warning and passes on a
    table without records instead of the full table. *)
Lemma date_filter_reversed_range_counterexample :
  invalid_selection [2; 1] = true
  ∧ date_filter [2; 1] scenario = Ok (mkDF header [], [])
  ∧ rows scenario ≠ [].
Proof. split_and!; [reflexivity | vm_compute; reflexivity | discriminate]. Qed.

Lemma date_filter_selection_witness :
  "Date" ∈ columns scenario
  ∧ date_filter [5] scenario
    = Ok (scenario, ["Please select a valid start and end date."])
  ∧ date_filter [2; 1] scenario
    = Ok (select (in_range 2 1) scenario, [])
  ∧ rows (select (in_range 2 1) scenario) = [].
Proof.
  assert ("Date" ∈ columns scenario) as Hd by compute_done.
  split; [exact Hd|].
  destruct (date_filter_selection [5] scenario Hd) as [H1 _].
  destruct (date_filter_selection [2; 1] scenario Hd)
    as [_ H2].
  destruct (H2 2 1 eq_refl) as [H3 H4].
  split; [apply H1; simpl; lia|]. split; [exact H3|]. apply H4. lia.
Defined.

(** C3 as stated fails twice: the keyword ["."] keeps both posts of the
    scenario although neither contains a full stop, and the keyword
    ["nan"] keeps a record whose post text is missing. *)
Lemma keyword_filter_counterexample :
  keyword_filter (txt ".") scenario = Ok scenario
  ∧ Forall (λ r, contains_ci (txt ".") (py_str (cell_at "Post" r)) = false)
      (rows scenario)
  ∧ keyword_filter (txt "nan") textless = Ok textless
  ∧ Forall (λ r, cell_at "Post" r = CNull) (rows textless)
  ∧ rows textless ≠ [].
Proof.
  split_and!; [vm_compute; reflexivity | | vm_compute; reflexivity | | discriminate];
    repeat constructor.
Qed.

Lemma keyword_filter_literal_witness :
  "Post" ∈ columns scenario
  ∧ ∃ df', keyword_filter (txt "SALE") scenario = Ok df'
      ∧ columns df' = columns scenario
      ∧ List.filter has_post (rows df')
        = List.filter
            (λ r, has_post r && contains_ci (txt "SALE") (py_str (cell_at "Post" r)))
            (rows scenario)
      ∧ ∀ s, contains_ci (txt "SALE") s = true ↔ occurs_ci (txt "SALE") s.
Proof.
  assert ("Post" ∈ columns scenario) as Hp by compute_done.
  split; [exact Hp|].
  apply (keyword_filter_literal (txt "SALE") scenario Hp).
  - discriminate.
  - repeat constructor.
Defined.

(** C4 as stated fails: with 23 clicks on 160 impressions the
    click-through rate computed is 14.37.  The claim's 100 * 23 / 160 is
    14.375, which is 14.38 to two decimals, be the half rounded to even
    or up.  The script divides first: (23 / 160) * 100 falls just below
    14.375 in double precision. *)
Lemma ctr_counterexample :
  exact_totals tie_post = true
  ∧ (λ o : Output,
       (total_clicks (summary o), total_impressions (summary o), ctr (summary o)))
      <$> dashboard tie_post [1; 1] []
    = Ok (23%Q, 160%Q, (float_of_Z 1437 / 100)%float)
  ∧ (100 * 23 / 160 == 14375 # 1000)%Q
  ∧ round_half_even (100 * 23 / 160 * 100) = 1438
  ∧ Qfloor (100 * 23 / 160 * 100 + (1 # 2)) = 1438
  ∧ (float_of_Z 1437 / 100 <? float_of_Z 1438 / 100)%float = true
  ∧ (float_of_Q 23 / float_of_Q 160 * 100 <? float_of_Q (14375 # 1000))%float
    = true.
Proof. split_and!; vm_compute; reflexivity. Qed.

Lemma rates_guarded_witness :
  exact_totals scenario_metrics = true
  ∧ ∃ s, aggregate scenario_metrics = Ok s
       ∧ (0 <? float_of_Q (total "Impressions" scenario_metrics))%float = true
       ∧ ctr s
         = py_round2 (float_of_Q (total "Clicks" scenario_metrics)
                      / float_of_Q (total "Impressions" scenario_metrics) * 100)
       ∧ ctr s = (float_of_Z 833 / 100)%float.
Proof.
  assert (exact_totals scenario_metrics = true) as Hexact
    by (vm_compute; reflexivity).
  split; [exact Hexact|].
  destruct (aggregate scenario_metrics) as [s|e] eqn:Hs;
    [|vm_compute in Hs; discriminate Hs].
  assert ((0 <? float_of_Q (total "Impressions" scenario_metrics))%float = true)
    as Hpos by (vm_compute; reflexivity).
  destruct (rates_guarded scenario_metrics Hexact) as [Hrates _].
  destruct (Hrates s Hs) as [Hround _]. destruct (Hround Hpos) as [_ Hctr].
  exists s. split; [reflexivity|]. split; [exact Hpos|]. split; [exact Hctr|].
  rewrite Hctr. vm_compute. reflexivity.
Defined.

(** C5 as stated fails twice: an upload without the Impressions column
    makes line 25 raise [KeyError]; and in a Likes column that was read as
    a column of dates no cell becomes null: the date becomes a number of
    nanoseconds and the blank the least 64-bit integer. *)
Lemma normalize_counterexample :
  NoDup (columns no_impressions)
  ∧ load no_impressions = Err (KeyError "Impressions")
  ∧ cell_at "Likes" <$> rows dated_likes = [CDate 86400000000000; CNull]
  ∧ (λ d, cell_at "Likes" <$> rows d)
      <$> coerce_metrics (lib := dated_likes_lib) dated_likes
    = Ok [num 86400000000000; num (- 2 ^ 63)].
Proof. split_and!; [compute_done | vm_compute; reflexivity ..]. Qed.

(** The cells of [raw_upload] after both coercions. *)
Example raw_upload_coerced :
  (λ d, (λ c, cell_at c <$> rows d)
          <$> ["Impressions"; "Date"; "Likes"; "Comments"; "Shares"; "Clicks";
               "Total Engagement"])
    <$> (d ← load raw_upload; coerce_metrics d)
  = Ok [[num 100; CNull]; [CDate 1; CNull]; [num 12; CNull]; [CNull; num 2];
        [num 3; CNull]; [CNull; num 7]; [CNull; CNull]].
Proof. vm_compute. reflexivity. Qed.

Lemma normalize_outcomes_witness :
  NoDup (columns raw_upload)
  ∧ Forall (λ c, c ∈ columns raw_upload)
      ["Impressions"; "Date"; "Likes"; "Comments"; "Shares"; "Clicks"]
  ∧ (∃ df', load raw_upload = Ok df' ∧ columns df' = columns raw_upload)
  ∧ (∃ df', coerce_metrics raw_upload = Ok df'
       ∧ Forall2 (λ r r' : row,
            cell_at "Comments" r' = to_numeric_cell "Comments" (cell_at "Comments" r))
           (rows raw_upload) (rows df'))
  ∧ to_numeric_cell "Comments" (CStr (txt "n/a")) = CNull.
Proof.
  assert (NoDup (columns raw_upload)) as Hnd by compute_done.
  assert (Forall (λ c, c ∈ columns raw_upload)
            ["Impressions"; "Date"; "Likes"; "Comments"; "Shares"; "Clicks"])
    as Hcols by (repeat constructor; compute_done).
  split; [exact Hnd|]. split; [exact Hcols|].
  destruct (normalize_outcomes raw_upload Hnd)
    as (_ & _ & _ & Hload & Hcoerce & _ & _ & _ & _ & _ & Hplain & _).
  rewrite !Forall_cons in Hcols.
  destruct Hcols as (Hi & Hd & Hl & Hc & Hs & Hk & _).
  destruct (Hload Hi Hd) as (df' & Hok & Hsame & _).
  split; [exists df'; split; [exact Hok | exact Hsame]|].
  assert (Forall (λ c, c ∈ columns raw_upload)
            ["Likes"; "Comments"; "Shares"; "Clicks"]) as Hfour
    by (repeat constructor; assumption).
  destruct (Hcoerce Hfour) as (df'' & Hok' & Hcells).
  split.
  - exists df''. split; [exact Hok'|].
    eapply Forall2_impl; [exact Hcells|]. intros r r' (_ & Hin & _).
    apply Hin. apply list_elem_of_In. simpl. tauto.
  - destruct (Hplain "Comments" eq_refl) as (_ & Htext & _).
    exact (Htext (txt "n/a")).
Defined.

Lemma classify_post_type_spec_witness :
  reverse educational_keywords ≡ₚ educational_keywords
  ∧ classify_with (reverse educational_keywords)
      (CStr (txt "Free Tutorial"))
    = Educational.
Proof.
  assert (reverse educational_keywords ≡ₚ educational_keywords) as Hperm
    by apply reverse_Permutation.
  split; [exact Hperm|].
  destruct (classify_post_type_spec (CStr (txt "Free Tutorial")))
    as (_ & _ & Horder & Hfree & _).
  rewrite (Horder _ Hperm). apply (Hfree [] []).
Defined.

Lemma hashtags_in_order_of_appearance_witness :
  hashtag_split (txt "#a b #a") [txt "#a"; txt "#a"]
  ∧ ∀ tags, hashtag_split (txt "#a b #a") tags → tags = [txt "#a"; txt "#a"].
Proof.
  destruct (hashtags_in_order_of_appearance
              (CStr (txt "#a b #a"))) as (Hsplit & Hunique & _).
  split; [exact Hsplit | exact Hunique].
Defined.

Lemma filters_commute_and_idempotent_witness :
  "Date" ∈ columns scenario ∧ "Post" ∈ columns scenario
  ∧ (d ← fst <$> date_filter [1; 1] scenario;
     keyword_filter (txt "TUTORIAL") d)
    = (d ← keyword_filter (txt "TUTORIAL") scenario;
       fst <$> date_filter [1; 1] d).
Proof.
  assert ("Date" ∈ columns scenario) as Hd by compute_done.
  assert ("Post" ∈ columns scenario) as Hp by compute_done.
  split; [exact Hd|]. split; [exact Hp|].
  apply (filters_commute_and_idempotent scenario 1 1 [1; 1]
           (txt "TUTORIAL") Hd Hp).
Defined.

Lemma info_field_default_only_when_absent_witness :
  ("Platform" ∉ columns no_platform)
  ∧ info_field "Platform" (txt "Unknown") no_platform = Ok (CStr (txt "Unknown"))
  ∧ "Platform" ∈ columns blank_platform
  ∧ Forall (λ r, cell_at "Platform" r = CNull) (rows blank_platform)
  ∧ info_field "Platform" (txt "Unknown") blank_platform = Err IndexError.
Proof.
  assert ("Platform" ∉ columns no_platform) as Hout by compute_done.
  assert ("Platform" ∈ columns blank_platform) as Hin by compute_done.
  assert (Forall (λ r, cell_at "Platform" r = CNull) (rows blank_platform))
    as Hnull by (repeat constructor).
  destruct (info_field_default_only_when_absent "Platform" (txt "Unknown")
              no_platform) as [H1 _].
  destruct (info_field_default_only_when_absent "Platform" (txt "Unknown")
              blank_platform) as (_ & H2 & _).
  split_and!; [exact Hout | exact (H1 Hout) | exact Hin | exact Hnull
              | exact (H2 Hin Hnull)].
Defined.

Lemma short_post_always_ellipsis_witness :
  (length (py_str (CStr (txt "Hi"))) ≤ 25)%nat
  ∧ short_post (CStr (txt "Hi")) = txt "Hi...".
Proof.
  assert (length (py_str (CStr (txt "Hi"))) ≤ 25)%nat
    as Hlen by (simpl; lia).
  destruct (short_post_always_ellipsis (CStr (txt "Hi")))
    as (_ & Hshort & _).
  split; [exact Hlen|]. exact (proj1 (Hshort Hlen)).
Defined.

End Examples.

(* ===================================================================== *)
(** * What the filters keep *)
(* ===================================================================== *)

Lemma filter_sublist {A} (f : A → bool) (l : list A) :
  List.filter f l `sublist_of` l.
Proof.
  induction l as [|x l IH]; simpl; [constructor|].
  destruct (f x); by constructor.
Qed.

Lemma elem_of_filter {A} (f : A → bool) (l : list A) (x : A) :
  x ∈ List.filter f l ↔ x ∈ l ∧ f x = true.
Proof. rewrite !list_elem_of_In. apply List.filter_In. Qed.

Lemma in_range_spec (start_date end_date : Z) (r : row) :
  in_range start_date end_date r = true
  ↔ ∃ t, cell_at "Date" r = CDate t ∧ start_date ≤ t ≤ end_date.
Proof.
  unfold in_range. destruct (cell_at "Date" r) as [| | |t|]; simpl.
  1-3, 5: split; [done | by intros (t' & ? & _)].
  rewrite andb_true_iff, !Z.leb_le. split.
  - intros [? ?]. by exists t.
  - intros (t' & [= <-] & ? & ?). done.
Qed.

Section FilterResults.
Context {lib : PyLib}.

(** X1: with a start and an end date the date filter fails only when the
    table has no Date column; otherwise it shows no warning, keeps the
    columns, and keeps, in their order, exactly the records whose date
    lies between start and end inclusive: a record without a date is
    always dropped. *)
Theorem date_filter_keeps_exactly_the_range
    (start_date end_date : Z) (df : DataFrame) :
  ("Date" ∉ columns df →
     date_filter [start_date; end_date] df = Err (KeyError "Date"))
  ∧ ("Date" ∈ columns df →
       ∃ df', date_filter [start_date; end_date] df = Ok (df', [])
         ∧ columns df' = columns df
         ∧ rows df' `sublist_of` rows df
         ∧ ∀ r, r ∈ rows df'
                ↔ r ∈ rows df
                  ∧ ∃ t, cell_at "Date" r = CDate t
                         ∧ start_date ≤ t ≤ end_date).
Proof.
  split.
  - intros Hd. unfold date_filter. by rewrite df_col_absent.
  - intros Hd. rewrite date_filter_pair by done. eexists.
    split_and!; [done | done | apply filter_sublist |].
    intros r. run_result. by rewrite elem_of_filter, in_range_spec.
Qed.

(** X2: the keyword filter never adds or changes a record: a returned
    table has the columns of the input and a subsequence of its records.
    With an empty keyword the Post column is not even read, so the table
    is returned also when that column is absent; with a non-empty keyword
    an absent Post column gives [KeyError], and a keyword that is
    rejected as a pattern gives the error of the compilation. *)
Theorem keyword_filter_outcomes (keyword : text) (df : DataFrame) :
  keyword_filter [] df = Ok df
  ∧ (keyword ≠ [] → "Post" ∉ columns df →
       keyword_filter keyword df = Err (KeyError "Post"))
  ∧ (∀ e, keyword ≠ [] → "Post" ∈ columns df → re_compile keyword = Err e →
       keyword_filter keyword df = Err e)
  ∧ (∀ df', keyword_filter keyword df = Ok df' →
       columns df' = columns df ∧ rows df' `sublist_of` rows df).
Proof.
  split_and!.
  - done.
  - intros Hk Hp. destruct keyword; [done|].
    unfold keyword_filter. by rewrite df_col_absent.
  - intros e Hk Hp He. rewrite keyword_filter_nonempty by done. by rewrite He.
  - intros df' Hok. destruct keyword as [|c k].
    { injection Hok as <-. done. }
    destruct (decide ("Post" ∈ columns df)) as [Hp|Hp].
    + rewrite keyword_filter_nonempty in Hok by done.
      destruct (re_compile (c :: k)) as [found|e]; [|done].
      run_result. injection Hok as <-. split; [done|]. apply filter_sublist.
    + unfold keyword_filter in Hok. by rewrite df_col_absent in Hok.
Qed.

End FilterResults.

(* ===================================================================== *)
(** * The bounds of the date picker *)
(* ===================================================================== *)

Lemma foldl_min_le (t : Z) (ts : list Z) :
  foldl Z.min t ts ≤ t ∧ Forall (λ x, foldl Z.min t ts ≤ x) ts.
Proof.
  revert t. induction ts as [|x ts IH]; intros t; simpl; [split; [lia|done]|].
  destruct (IH (Z.min t x)) as [H1 H2]. split; [lia|].
  constructor; [lia | done].
Qed.

Lemma foldl_max_ge (t : Z) (ts : list Z) :
  t ≤ foldl Z.max t ts ∧ Forall (λ x, x ≤ foldl Z.max t ts) ts.
Proof.
  revert t. induction ts as [|x ts IH]; intros t; simpl; [split; [lia|done]|].
  destruct (IH (Z.max t x)) as [H1 H2]. split; [lia|].
  constructor; [lia | done].
Qed.

Lemma foldl_min_elem (t : Z) (ts : list Z) : foldl Z.min t ts ∈ t :: ts.
Proof.
  revert t. induction ts as [|x ts IH]; intros t; simpl; [by left|].
  specialize (IH (Z.min t x)). apply elem_of_cons in IH as [IH|IH].
  - rewrite IH. destruct (Z.min_spec t x) as [[_ ->]|[_ ->]].
    + by left.
    + right. by left.
  - do 2 right. done.
Qed.

Lemma foldl_max_elem (t : Z) (ts : list Z) : foldl Z.max t ts ∈ t :: ts.
Proof.
  revert t. induction ts as [|x ts IH]; intros t; simpl; [by left|].
  specialize (IH (Z.max t x)). apply elem_of_cons in IH as [IH|IH].
  - rewrite IH. destruct (Z.max_spec t x) as [[_ ->]|[_ ->]].
    + right. by left.
    + by left.
  - do 2 right. done.
Qed.

Lemma in_range_dated (start_date end_date : Z) (r : row) :
  in_range start_date end_date r
  = match date_of r with
    | Some t => (start_date <=? t) && (t <=? end_date)
    | None => false
    end.
Proof. unfold in_range, date_of. by destruct (cell_at "Date" r). Qed.

(** X3: on a table with a Date column, the earliest and the latest date
    (lines 33 and 34) are NaT exactly when no record has a date;
    otherwise each is the date of some record, every dated record lies
    between them, and any selection that starts no later than the
    earliest date and ends no earlier than the latest keeps exactly the
    dated records: the records without a date are the only ones lost. *)
Theorem date_bounds_cover_dated_records (df : DataFrame) :
  "Date" ∈ columns df →
  (date_min df = Ok None ↔ Forall (λ r, date_of r = None) (rows df))
  ∧ (date_max df = Ok None ↔ Forall (λ r, date_of r = None) (rows df))
  ∧ ∀ lo hi, date_min df = Ok (Some lo) → date_max df = Ok (Some hi) →
      (∃ r, r ∈ rows df ∧ date_of r = Some lo)
      ∧ (∃ r, r ∈ rows df ∧ date_of r = Some hi)
      ∧ (∀ r t, r ∈ rows df → date_of r = Some t → lo ≤ t ≤ hi)
      ∧ (∀ start_date end_date, start_date ≤ lo → hi ≤ end_date →
           date_filter [start_date; end_date] df = Ok (select dated df, [])).
Proof.
  intros Hd. unfold date_min, date_max. rewrite df_col_present by done.
  run_result.
  assert (omap date_of (rows df) = [] ↔ Forall (λ r, date_of r = None) (rows df))
    as Hnone.
  { rewrite Forall_forall. split.
    - intros Hnil r Hr. destruct (date_of r) as [t|] eqn:E; [|done].
      assert (t ∈ omap date_of (rows df)) as Hin
        by (apply list_elem_of_omap; eauto).
      rewrite Hnil in Hin. by apply not_elem_of_nil in Hin.
    - intros Hall. destruct (omap date_of (rows df)) as [|t ts] eqn:E; [done|].
      assert (t ∈ omap date_of (rows df)) as Hin by (rewrite E; by left).
      apply list_elem_of_omap in Hin as (r & Hr & Ht).
      rewrite (Hall r Hr) in Ht. done. }
  split_and!.
  - rewrite <- Hnone. by destruct (omap date_of (rows df)).
  - rewrite <- Hnone. by destruct (omap date_of (rows df)).
  - intros lo hi Hlo Hhi. clear Hnone.
    destruct (omap date_of (rows df)) as [|t ts] eqn:E; [done|].
    injection Hlo as <-. injection Hhi as <-.
    pose proof (foldl_min_le t ts) as [Hmin1 Hmin2].
    pose proof (foldl_max_ge t ts) as [Hmax1 Hmax2].
    assert (∀ r x, r ∈ rows df → date_of r = Some x →
              foldl Z.min t ts ≤ x ≤ foldl Z.max t ts) as Hbounds.
    { intros r x Hr Hx.
      assert (x ∈ t :: ts) as Hin
        by (rewrite <- E; apply list_elem_of_omap; eauto).
      rewrite Forall_forall in Hmin2, Hmax2.
      apply elem_of_cons in Hin as [->|Hin]; [lia|].
      specialize (Hmin2 x Hin). specialize (Hmax2 x Hin). lia. }
    split_and!.
    + pose proof (foldl_min_elem t ts) as Hin. rewrite <- E in Hin.
      apply list_elem_of_omap in Hin as (r & ? & ?). eauto.
    + pose proof (foldl_max_elem t ts) as Hin. rewrite <- E in Hin.
      apply list_elem_of_omap in Hin as (r & ? & ?). eauto.
    + done.
    + intros s e Hs He. rewrite date_filter_pair by done.
      unfold select. do 3 f_equal. apply List.filter_ext_in.
      intros r Hr%list_elem_of_In. rewrite in_range_dated. unfold dated.
      destruct (date_of r) as [x|] eqn:Ex; [|done].
      specialize (Hbounds r x Hr Ex).
      apply andb_true_iff. rewrite !Z.leb_le. lia.
Qed.

(* ===================================================================== *)
(** * The metric coercion and the filters *)
(* ===================================================================== *)

Lemma filter_fmap_keep {A} (keep : A → bool) (g : A → A) (l : list A) :
  (∀ x, keep (g x) = keep x) →
  List.filter keep (g <$> l) = g <$> List.filter keep l.
Proof.
  intros Hkeep. induction l as [|x l IH]; [done|].
  rewrite fmap_cons. cbn [List.filter]. rewrite Hkeep, IH.
  by destruct (keep x).
Qed.

Lemma select_assign (keep : row → bool) (c : string) (f : row → cell)
    (df : DataFrame) :
  (∀ r, keep (r.1, <[c := f r]> r.2) = keep r) →
  select keep (assign c f df) = assign c f (select keep df).
Proof.
  intros Hkeep. unfold select, assign. simpl. f_equal.
  by apply (filter_fmap_keep keep (λ r, (r.1, <[c := f r]> r.2))).
Qed.

Section CoerceProperties.
Context {lib : PyLib}.

Lemma to_numeric_absent (c : string) (df : DataFrame) :
  c ∉ columns df → to_numeric c df = Err (KeyError c).
Proof. intros Hc. unfold to_numeric. by rewrite df_col_absent. Qed.

Lemma coerce_metrics_select (keep : row → bool) (df : DataFrame) :
  "Likes" ∈ columns df → "Comments" ∈ columns df →
  "Shares" ∈ columns df → "Clicks" ∈ columns df →
  (∀ (r : row) c v, c ∈ metric_columns → keep (r.1, <[c := v]> r.2) = keep r) →
  (d ← coerce_metrics df; mret (select keep d))
  = coerce_metrics (select keep df).
Proof.
  intros Hl Hc Hs Hk Hkeep.
  rewrite !coerce_metrics_present by done. run_result. f_equal.
  assert (∀ c, c ∈ metric_columns →
            ∀ f d, select keep (assign c f d) = assign c f (select keep d))
    as Hswap.
  { intros c Hin f d. apply select_assign. intros r. by apply Hkeep. }
  rewrite !Hswap; [done|..]; unfold metric_columns;
    apply list_elem_of_In; simpl; tauto.
Qed.

(** X4: the script coerces Likes, Comments, Shares and Clicks after it
    has filtered (lines 55 to 59 come after lines 43 to 52); on a table
    with its columns this gives the same table as coercing first and
    filtering afterwards, for the date filter and for the keyword
    filter. *)
Theorem coerce_metrics_commutes_with_filters
    (df : DataFrame) (date_range : list Z) (keyword : text) :
  "Date" ∈ columns df → "Post" ∈ columns df →
  "Likes" ∈ columns df → "Comments" ∈ columns df →
  "Shares" ∈ columns df → "Clicks" ∈ columns df →
  (d ← fst <$> date_filter date_range df; coerce_metrics d)
  = (d ← coerce_metrics df; fst <$> date_filter date_range d)
  ∧ (d ← keyword_filter keyword df; coerce_metrics d)
    = (d ← coerce_metrics df; keyword_filter keyword d).
Proof.
  intros Hd Hp Hl Hc Hs Hk.
  assert (∀ c, c ∈ metric_columns → c ≠ "Date" ∧ c ≠ "Post") as Hne.
  { intros c Hin. apply list_elem_of_In in Hin. simpl in Hin.
    destruct Hin as [<-|[<-|[<-|[<-|[<-|[<-|[]]]]]]]; done. }
  split.
  - destruct (decide (length date_range = 2%nat)) as [Hlen|Hlen].
    + destruct date_range as [|s [|e [|? ?]]]; try discriminate Hlen.
      rewrite date_filter_pair by done. run_result.
      rewrite <- coerce_metrics_select; try done.
      * rewrite coerce_metrics_present by done. run_result.
        rewrite date_filter_pair by by do 5 apply assign_keeps_column. done.
      * intros [i m] c v Hin. destruct (Hne c Hin) as [? _].
        unfold in_range. simpl. by rewrite cell_at_insert_ne.
    + rewrite date_filter_not_pair by done. run_result.
      rewrite coerce_metrics_present by done. run_result.
      by rewrite date_filter_not_pair.
  - destruct keyword as [|a k].
    { unfold keyword_filter. run_result.
      rewrite coerce_metrics_present by done. done. }
    rewrite coerce_metrics_present by done. run_result.
    rewrite !keyword_filter_nonempty
      by (done || by do 5 apply assign_keeps_column).
    destruct (re_compile (a :: k)) as [found|e]; run_result; [|done].
    rewrite <- coerce_metrics_select; try done.
    + rewrite coerce_metrics_present by done. done.
    + intros [i m] c v Hin. destruct (Hne c Hin) as [_ ?].
      simpl. by rewrite cell_at_insert_ne.
Qed.

(** X5: the metric coercion fails exactly when one of Likes, Comments,
    Shares and Clicks is absent, with a [KeyError] for the first absent
    one in this order.  Otherwise, in every record of its result the four
    cells are numbers or null, and Total Engagement is
    likes + comments + shares when the three are numbers and null as soon
    as one of them is null. *)
Theorem coerce_metrics_total_engagement (df : DataFrame) :
  match List.find (λ c, bool_decide (c ∉ columns df))
          ["Likes"; "Comments"; "Shares"; "Clicks"] with
  | Some c => coerce_metrics df = Err (KeyError c)
  | None =>
      ∃ df', coerce_metrics df = Ok df'
        ∧ length (rows df') = length (rows df)
        ∧ ∀ r, r ∈ rows df' →
            Forall (λ c, numeric_or_null (cell_at c r) = true)
              ["Likes"; "Comments"; "Shares"; "Clicks"]
            ∧ cell_at "Total Engagement" r
              = match numeric (cell_at "Likes" r),
                      numeric (cell_at "Comments" r),
                      numeric (cell_at "Shares" r) with
                | Some l, Some c, Some s => CNum (l + c + s)
                | _, _, _ => CNull
                end
  end.
Proof.
  pose proof to_numeric_cell_numeric as Hnum.
  simpl.
  destruct (decide ("Likes" ∈ columns df)) as [Hl|Hl].
  2: { rewrite bool_decide_eq_true_2 by done. unfold coerce_metrics.
       by rewrite to_numeric_absent. }
  rewrite (bool_decide_eq_false_2 ("Likes" ∉ columns df)) by auto.
  destruct (decide ("Comments" ∈ columns df)) as [Hc|Hc].
  2: { rewrite bool_decide_eq_true_2 by done. unfold coerce_metrics.
       rewrite to_numeric_present by done. run_result.
       rewrite to_numeric_absent; [done|]. by columns_assign. }
  rewrite (bool_decide_eq_false_2 ("Comments" ∉ columns df)) by auto.
  destruct (decide ("Shares" ∈ columns df)) as [Hs|Hs].
  2: { rewrite bool_decide_eq_true_2 by done. unfold coerce_metrics.
       rewrite to_numeric_present by done. run_result.
       rewrite to_numeric_present by by apply assign_keeps_column. run_result.
       rewrite to_numeric_absent; [done|].
       by columns_assign. }
  rewrite (bool_decide_eq_false_2 ("Shares" ∉ columns df)) by auto.
  destruct (decide ("Clicks" ∈ columns df)) as [Hk|Hk].
  2: { rewrite bool_decide_eq_true_2 by done. unfold coerce_metrics.
       rewrite to_numeric_present by done. run_result.
       rewrite to_numeric_present by by apply assign_keeps_column. run_result.
       rewrite to_numeric_present by by do 2 apply assign_keeps_column.
       run_result. rewrite to_numeric_absent; [done|].
       by columns_assign. }
  rewrite (bool_decide_eq_false_2 ("Clicks" ∉ columns df)) by auto.
  rewrite coerce_metrics_present by done. eexists. split; [done|].
  unfold assign. simpl. rewrite <- !list_fmap_compose. split.
  { by rewrite length_fmap. }
  intros r' (r & -> & _)%list_elem_of_fmap. destruct r as [i m]. simpl.
  split.
  - rewrite !Forall_cons, Forall_nil. cell_lookup.
    split_and!; try apply Hnum; done.
  - cell_lookup. pose proof (Hnum "Likes" (cell_at "Likes" (i, m))) as H1.
    pose proof (Hnum "Comments" (cell_at "Comments" (i, m))) as H2.
    pose proof (Hnum "Shares" (cell_at "Shares" (i, m))) as H3.
    destruct (to_numeric_cell "Likes" (cell_at "Likes" (i, m))); try done;
      destruct (to_numeric_cell "Comments" (cell_at "Comments" (i, m))); try done;
      destruct (to_numeric_cell "Shares" (cell_at "Shares" (i, m))); done.
Qed.

End CoerceProperties.

(* ===================================================================== *)
(** * The top posts and the outcome of the aggregation *)
(* ===================================================================== *)

(** [argmax_from] returns the label of the first greatest value. *)
Lemma argmax_from_first (before : list (Z * Q)) (best : Z * Q)
    (tied l : list (Z * Q)) :
  Forall (λ x, (x.2 < best.2)%Q) before →
  Forall (λ x, (x.2 <= best.2)%Q) tied →
  ∃ pre q post,
    before ++ best :: tied ++ l = pre ++ (argmax_from best l, q) :: post
    ∧ Forall (λ x, (x.2 < q)%Q) pre
    ∧ Forall (λ x, (x.2 <= q)%Q) post.
Proof.
  revert before best tied. induction l as [|x l IH]; intros before best tied Hb Ht.
  - exists before, best.2, tied. rewrite app_nil_r. by destruct best.
  - simpl. destruct (Qltb best.2 x.2) eqn:E.
    + apply Qltb_true in E.
      destruct (IH (before ++ best :: tied) x []) as (pre & q & post & Heq & ? & ?).
      * apply Forall_app. split.
        -- eapply Forall_impl; [exact Hb|]. intros y Hy. simpl in Hy.
           by apply Qlt_trans with best.2.
        -- constructor; [done|].
           eapply Forall_impl; [exact Ht|]. intros y Hy. simpl in Hy.
           by apply Qle_lt_trans with best.2.
      * done.
      * exists pre, q, post. split; [|done]. rewrite <- Heq.
        by rewrite <- app_assoc.
    + apply Qltb_false in E.
      destruct (IH before best (tied ++ [x])) as (pre & q & post & Heq & ? & ?).
      * done.
      * apply Forall_app. split; [done|]. by constructor.
      * exists pre, q, post. split; [|done]. rewrite <- Heq.
        by rewrite <- app_assoc.
Qed.

Lemma omap_split {A B} (g : A → option B) (l : list A) (pre post : list B) (y : B) :
  omap g l = pre ++ y :: post →
  ∃ before x after, l = before ++ x :: after
    ∧ omap g before = pre ∧ g x = Some y ∧ omap g after = post.
Proof.
  revert pre. induction l as [|a l IH]; intros pre Heq.
  - by destruct pre.
  - simpl in Heq. destruct (g a) as [b|] eqn:E.
    + destruct pre as [|b' pre]; simpl in Heq.
      * injection Heq as -> <-. exists [], a, l. done.
      * injection Heq as -> Heq.
        destruct (IH pre Heq) as (before & x & after & -> & <- & ? & ?).
        exists (a :: before), x, after. simpl. rewrite E. done.
    + destruct (IH pre Heq) as (before & x & after & -> & <- & ? & ?).
      exists (a :: before), x, after. simpl. rewrite E. done.
Qed.

Lemma find_label_unique (l : list row) (r : row) :
  NoDup (l.*1) → r ∈ l →
  List.find (λ x : row, bool_decide (x.1 = r.1)) l = Some r.
Proof.
  induction l as [|a l IH]; intros Hnd Hin; [by apply elem_of_nil in Hin|].
  simpl in Hnd. apply NoDup_cons in Hnd as [Ha Hnd]. simpl.
  apply elem_of_cons in Hin as [->|Hin].
  - by rewrite bool_decide_eq_true_2.
  - rewrite bool_decide_eq_false_2; [by apply IH|].
    intros Heq. apply Ha. rewrite Heq. by apply list_elem_of_fmap_2.
Qed.



Lemma idxmax_value (c : string) (df : DataFrame) (i : Z) :
  idxmax c df = Ok (Some i) →
  ∃ before r q after,
    rows df = before ++ r :: after ∧ r.1 = i ∧ cell_at c r = CNum q
    ∧ (∀ r' q', r' ∈ before → cell_at c r' = CNum q' → (q' < q)%Q)
    ∧ (∀ r' q', r' ∈ after → cell_at c r' = CNum q' → (q' <= q)%Q).
Proof.
  unfold idxmax, df_col. case_bool_decide; run_result; [|done].
  destruct (rows df) as [|r0 rs] eqn:Hrows; [done|]. rewrite <- Hrows.
  destruct (omap _ (rows df)) as [|b l] eqn:E; [done|]. intros [= <-].
  destruct (argmax_from_first [] b [] l) as (pre & q & post & Heq & Hpre & Hpost);
    [done..|].
  simpl in Heq. rewrite <- E in Heq.
  apply omap_split in Heq as (before & r & after & Hsplit & <- & Hr & <-).
  exists before, r, q, after.
  destruct (numeric (cell_at c r)) as [q0|] eqn:Hq; [|done].
  injection Hr as <- <-. split_and!; [done | done | | |].
  - destruct (cell_at c r); by simplify_eq/=.
  - intros r' q' Hin Hc'. rewrite Forall_forall in Hpre.
    apply (Hpre (r'.1, q')). apply list_elem_of_omap. exists r'.
    split; [done|]. by rewrite Hc'.
  - intros r' q' Hin Hc'. rewrite Forall_forall in Hpost.
    apply (Hpost (r'.1, q')). apply list_elem_of_omap. exists r'.
    split; [done|]. by rewrite Hc'.
Qed.


Section TopPosts.
Context {lib : PyLib}.

Lemma loc_first_maximum (c : string) (df : DataFrame) (best : option Z) (r : row) :
  NoDup (rows df).*1 → idxmax c df = Ok best → loc best df = Ok r →
  ∃ before q after,
    rows df = before ++ r :: after ∧ cell_at c r = CNum q
    ∧ (∀ r' q', r' ∈ before → cell_at c r' = CNum q' → (q' < q)%Q)
    ∧ (∀ r' q', r' ∈ after → cell_at c r' = CNum q' → (q' <= q)%Q).
Proof.
  intros Hnd Hbest Hloc. destruct best as [i|]; [|done].
  apply idxmax_value in Hbest
    as (before & r0 & q & after & Hrows & Hi & Hq & Hlt & Hle).
  unfold loc in Hloc. rewrite <- Hi in Hloc.
  rewrite find_label_unique in Hloc; [|done|].
  - injection Hloc as <-. by exists before, q, after.
  - rewrite Hrows. apply elem_of_app. right. by left.
Qed.

(** X6: in a returned summary, on a table whose index labels are
    distinct, the top post is a record of the table with a Likes value
    that no record exceeds and that no earlier record reaches: the first
    record with the greatest number of likes.  The most engaging post is
    the same for Total Engagement.  Records without a value are passed
    over. *)
Theorem top_posts_are_first_maxima (df : DataFrame) (s : Summary) :
  NoDup (rows df).*1 → aggregate df = Ok s →
  (∃ before q after,
     rows df = before ++ top_post s :: after
     ∧ cell_at "Likes" (top_post s) = CNum q
     ∧ (∀ r q', r ∈ before → cell_at "Likes" r = CNum q' → (q' < q)%Q)
     ∧ (∀ r q', r ∈ after → cell_at "Likes" r = CNum q' → (q' <= q)%Q))
  ∧ (∃ before q after,
       rows df = before ++ top_engaging_post s :: after
       ∧ cell_at "Total Engagement" (top_engaging_post s) = CNum q
       ∧ (∀ r q', r ∈ before → cell_at "Total Engagement" r = CNum q' →
            (q' < q)%Q)
       ∧ (∀ r q', r ∈ after → cell_at "Total Engagement" r = CNum q' →
            (q' <= q)%Q)).
Proof.
  intros Hnd Hs.
  destruct (decide (Forall (λ c, c ∈ columns df) metric_columns)) as [Hc|Hc].
  2: { apply aggregate_absent in Hc as [c Hc]. congruence. }
  rewrite aggregate_present in Hs by done.
  destruct (idxmax "Likes" df) as [best|] eqn:E1; [|done]. run_result.
  destruct (loc best df) as [top|] eqn:E2; [|done]. run_result.
  destruct (idxmax "Total Engagement" df) as [best'|] eqn:E3; [|done].
  run_result.
  destruct (loc best' df) as [top'|] eqn:E4; [|done]. run_result.
  injection Hs as <-. simpl. split.
  - by apply (loc_first_maximum "Likes" df best top).
  - by apply (loc_first_maximum "Total Engagement" df best' top').
Qed.




End TopPosts.

(* ===================================================================== *)
(** * The derived columns *)
(* ===================================================================== *)

Lemma assign_labels (c : string) (f : row → cell) (df : DataFrame) :
  (rows (assign c f df)).*1 = (rows df).*1.
Proof.
  unfold assign. simpl. rewrite <- list_fmap_compose. by apply list_fmap_ext.
Qed.

Lemma assign_column_iff (c c' : string) (f : row → cell) (df : DataFrame) :
  c' ∈ columns (assign c f df) ↔ c' ∈ columns df ∨ c' = c.
Proof.
  unfold assign. simpl. case_bool_decide as Hc.
  - split; [by left|]. by intros [?| ->].
  - rewrite elem_of_app, list_elem_of_singleton. done.
Qed.

Lemma short_post_length {lib : PyLib} (post : cell) :
  (length (short_post post) = length (py_str post) `min` 25 + 3)%nat.
Proof.
  unfold short_post, slice0. rewrite length_app, length_take.
  change (length (txt "...")) with 3%nat. lia.
Qed.

Section DeriveResults.
Context {lib : PyLib}.

(** X9: the derivation of Short Post, Post Type and Hashtags fails only
    when the table has no Post column.  Otherwise it returns a table with
    the same records under the same labels, in which every cell of every
    other column is unchanged and the three columns are present; the
    short label has at most 28 characters, the post type is one of the
    two names, and the hashtags cell holds a list. *)
Theorem derive_adds_three_columns (df : DataFrame) :
  ("Post" ∉ columns df → derive df = Err (KeyError "Post"))
  ∧ ("Post" ∈ columns df →
       ∃ df', derive df = Ok df'
         ∧ (∀ c, c ∈ columns df'
                 ↔ c ∈ columns df ∨ c ∈ ["Short Post"; "Post Type"; "Hashtags"])
         ∧ Forall2 (λ r r' : row,
              r'.1 = r.1
              ∧ (∀ c, c ∉ ["Short Post"; "Post Type"; "Hashtags"] →
                   cell_at c r' = cell_at c r)
              ∧ (∃ label, cell_at "Short Post" r' = CStr label
                          ∧ label = short_post (cell_at "Post" r)
                          ∧ (length label ≤ 28)%nat)
              ∧ (cell_at "Post Type" r' = CStr (txt "Educational")
                 ∨ cell_at "Post Type" r' = CStr (txt "Other"))
              ∧ cell_at "Hashtags" r' = CList (hashtags (cell_at "Post" r)))
             (rows df) (rows df')).
Proof.
  split.
  - intros Hp. unfold derive. by rewrite df_col_absent.
  - intros Hp. unfold derive. rewrite df_col_present by done. run_result.
    eexists. split; [done|]. split.
    + intros c. rewrite !assign_column_iff, !elem_of_cons, elem_of_nil. tauto.
    + unfold assign. simpl. rewrite <- !list_fmap_compose.
      apply Forall2_fmap_r, Forall_Forall2_diag, Forall_forall.
      intros [i m] _. simpl. split_and!.
      * done.
      * intros c Hc. rewrite !not_elem_of_cons in Hc.
        destruct Hc as (? & ? & ? & _). by cell_lookup.
      * eexists. cell_lookup. split_and!; [done | done|].
        rewrite short_post_length. lia.
      * cell_lookup.
        destruct (classify_post_type (cell_at "Post" (i, m))); [by left | by right].
      * by cell_lookup.
Qed.

End DeriveResults.

(* ===================================================================== *)
(** * Coercing twice *)
(* ===================================================================== *)

Lemma assign_assign (c : string) (f g : row → cell) (df : DataFrame) :
  c ∈ columns df →
  (∀ r, f (r.1, <[c := g r]> r.2) = g r) →
  assign c f (assign c g df) = assign c g df.
Proof.
  intros Hc Hfg. unfold assign at 1. rewrite assign_columns by done.
  rewrite bool_decide_eq_true_2 by done.
  unfold assign. simpl. rewrite bool_decide_eq_true_2 by done. f_equal.
  rewrite <- list_fmap_compose. apply list_fmap_ext.
  intros _ [i m] _. pose proof (Hfg (i, m)) as Hr. simpl in *.
  by rewrite Hr, insert_insert_eq.
Qed.

Section CoerceTwice.
Context {lib : PyLib}.

Lemma to_numeric_cell_idemp (c : string) (x : cell) :
  to_numeric_cell c (to_numeric_cell c x) = to_numeric_cell c x.
Proof.
  unfold to_numeric_cell.
  destruct (datetime64 c), x as [|s|q|t|l]; simpl; try done.
  by destruct (parse_number s).
Qed.

Lemma to_datetime_cell_idemp (x : cell) :
  to_datetime_cell (to_datetime_cell x) = to_datetime_cell x.
Proof.
  destruct x as [|s|q|t|l]; simpl; try done.
  - by destruct (parse_date s).
  - by destruct (number_to_date q).
Qed.

(** X10: coercing a column that has already been coerced changes
    nothing: for every column of the table, the numeric coercion applied
    twice gives the table of a single application, and so does the date
    coercion; a column that is absent gives [KeyError] both times. *)
Theorem coercion_is_idempotent (c : string) (df : DataFrame) :
  (d ← to_numeric c df; to_numeric c d) = to_numeric c df
  ∧ (d ← to_datetime c df; to_datetime c d) = to_datetime c df.
Proof.
  destruct (decide (c ∈ columns df)) as [Hc|Hc].
  - rewrite to_numeric_present, to_datetime_present by done. run_result.
    rewrite to_numeric_present, to_datetime_present
      by by apply assign_keeps_column.
    split; f_equal; apply assign_assign; try done; intros [i m]; cell_lookup.
    + apply to_numeric_cell_idemp.
    + apply to_datetime_cell_idemp.
  - unfold to_numeric, to_datetime. by rewrite df_col_absent.
Qed.

End CoerceTwice.

(* ===================================================================== *)
(** * The header *)
(* ===================================================================== *)

Lemma lstrip_split (s : text) :
  ∃ lead, s = lead ++ lstrip s ∧ Forall (λ c, is_space c = true) lead.
Proof.
  induction s as [|c s (lead & Hs & Hlead)]; [by exists []|]. simpl.
  destruct (is_space c) eqn:E.
  - exists (c :: lead). split; [simpl; by rewrite <- Hs | by constructor].
  - by exists [].
Qed.

Lemma lstrip_head (s : text) (c : ascii) (rest : text) :
  lstrip s = c :: rest → is_space c = false.
Proof.
  induction s as [|d s IH]; [done|]. simpl.
  destruct (is_space d) eqn:E; [done|]. by intros [= <- _].
Qed.

Lemma lstrip_id (s : text) :
  (∀ c rest, s = c :: rest → is_space c = false) → lstrip s = s.
Proof. destruct s as [|c s]; [done|]. intros Hc. simpl. by rewrite (Hc c s). Qed.

Lemma lstrip_snoc (l : text) (c : ascii) :
  is_space c = false → ∃ l', lstrip (l ++ [c]) = l' ++ [c].
Proof.
  intros Hc. induction l as [|d l (l' & IH)]; simpl.
  - rewrite Hc. by exists [].
  - destruct (is_space d); [by exists l'|]. by exists (d :: l).
Qed.

Lemma rstrip_split (s : text) :
  ∃ trail, s = rstrip s ++ trail ∧ Forall (λ c, is_space c = true) trail.
Proof.
  destruct (lstrip_split (reverse s)) as (lead & Hs & Hlead).
  exists (reverse lead). split; [|by apply Forall_reverse].
  unfold rstrip. rewrite <- reverse_app, <- Hs. by rewrite reverse_involutive.
Qed.

Lemma rstrip_last (s init : text) (c : ascii) :
  rstrip s = init ++ [c] → is_space c = false.
Proof.
  unfold rstrip. intros Hs. apply (f_equal reverse) in Hs.
  rewrite reverse_involutive, reverse_app in Hs. by apply lstrip_head in Hs.
Qed.

Lemma rstrip_keeps_head (c : ascii) (s : text) :
  is_space c = false → ∃ rest, rstrip (c :: s) = c :: rest.
Proof.
  intros Hc. unfold rstrip. rewrite reverse_cons.
  destruct (lstrip_snoc (reverse s) c Hc) as [l' ->].
  exists (reverse l'). by rewrite reverse_app.
Qed.

Lemma rstrip_id (s : text) :
  (∀ init c, s = init ++ [c] → is_space c = false) → rstrip s = s.
Proof.
  intros Hlast. unfold rstrip. rewrite lstrip_id; [apply reverse_involutive|].
  intros c rest Hrev. apply (Hlast (reverse rest) c).
  apply (f_equal reverse) in Hrev.
  by rewrite reverse_involutive, reverse_cons in Hrev.
Qed.

Lemma strip_ends (s : text) :
  (∀ c rest, strip s = c :: rest → is_space c = false)
  ∧ (∀ init c, strip s = init ++ [c] → is_space c = false).
Proof.
  unfold strip. split; [|intros init c; apply rstrip_last].
  intros c rest Hs. destruct (lstrip s) as [|d x] eqn:E; [done|].
  apply lstrip_head in E. destruct (rstrip_keeps_head d x E) as [rest' Hr].
  rewrite Hr in Hs. by injection Hs as <- _.
Qed.

Lemma strip_idemp (s : text) : strip (strip s) = strip s.
Proof.
  destruct (strip_ends s) as [Hhead Hlast].
  unfold strip at 1. rewrite lstrip_id by done. by apply rstrip_id.
Qed.

(** X11: stripping a column name (line 24) removes a run of whitespace
    at its start and one at its end and nothing else: the name reads as
    whitespace, the stripped name, whitespace; the stripped name neither
    starts nor ends with whitespace; and stripping the header a second
    time changes nothing. *)
Theorem strip_columns_trims_both_ends (name : string) (names : list string) :
  (∃ lead trail,
     list_ascii_of_string name
     = lead ++ list_ascii_of_string (strip_name name) ++ trail
     ∧ Forall (λ c, is_space c = true) lead
     ∧ Forall (λ c, is_space c = true) trail)
  ∧ (∀ c rest, list_ascii_of_string (strip_name name) = c :: rest →
       is_space c = false)
  ∧ (∀ init c, list_ascii_of_string (strip_name name) = init ++ [c] →
       is_space c = false)
  ∧ strip_columns (strip_columns names) = strip_columns names.
Proof.
  unfold strip_name. rewrite list_ascii_of_string_of_list_ascii.
  destruct (strip_ends (list_ascii_of_string name)) as [Hhead Hlast].
  split_and!; [|done|done|].
  - destruct (lstrip_split (list_ascii_of_string name)) as (lead & Hs & Hlead).
    destruct (rstrip_split (lstrip (list_ascii_of_string name)))
      as (trail & Ht & Htrail).
    exists lead, trail. split; [|done]. unfold strip. by rewrite <- Ht.
  - unfold strip_columns. rewrite <- list_fmap_compose. apply list_fmap_ext.
    intros _ n _. simpl. unfold strip_name.
    by rewrite list_ascii_of_string_of_list_ascii, strip_idemp.
Qed.

(* ===================================================================== *)
(** * The chart data *)
(* ===================================================================== *)

Section GroupBy.
Context {V : Type} (add : V → V → V) (value : row → V).

Lemma group_add_keys (t : Z) (v : V) (groups : list (Z * V)) (k : Z) :
  k ∈ (group_add add t v groups).*1 ↔ k = t ∨ k ∈ groups.*1.
Proof.
  induction groups as [|g groups IH]; simpl.
  - rewrite list_elem_of_singleton, elem_of_nil. tauto.
  - destruct (t <? g.1) eqn:E1; [simpl; rewrite !elem_of_cons; tauto|].
    destruct (t =? g.1) eqn:E2.
    + apply Z.eqb_eq in E2. simpl. rewrite !elem_of_cons. split; [tauto|].
      intros [->|[->|?]]; tauto.
    + simpl. rewrite !elem_of_cons, IH. tauto.
Qed.

Lemma group_add_sorted (t : Z) (v : V) (groups : list (Z * V)) :
  StronglySorted Z.lt groups.*1 →
  StronglySorted Z.lt (group_add add t v groups).*1.
Proof.
  induction groups as [|g groups IH]; simpl; intros Hs.
  - repeat constructor.
  - apply StronglySorted_inv in Hs as [Hs Hg].
    destruct (t <? g.1) eqn:E1.
    { apply Z.ltb_lt in E1. simpl. constructor; [by constructor|].
      constructor; [done|]. eapply Forall_impl; [exact Hg|].
      intros k Hk. simpl in Hk. lia. }
    apply Z.ltb_ge in E1. destruct (t =? g.1) eqn:E2.
    { simpl. by constructor. }
    apply Z.eqb_neq in E2. simpl. constructor; [by apply IH|].
    apply Forall_forall. intros k Hk. apply group_add_keys in Hk as [->|Hk].
    + lia.
    + rewrite Forall_forall in Hg. by apply Hg.
Qed.

Lemma sorted_head_fresh (g : Z * V) (groups : list (Z * V)) (t : Z) (a : V) :
  StronglySorted Z.lt (g :: groups).*1 → t ≤ g.1 → (t, a) ∉ groups.
Proof.
  simpl. intros Hs Ht Hin. apply StronglySorted_inv in Hs as [_ Hg].
  rewrite Forall_forall in Hg.
  assert (g.1 < t); [|lia]. apply Hg.
  by apply (list_elem_of_fmap_2 fst) in Hin.
Qed.

(** The groups after one more record: the group of its date receives the
    value, the others are untouched. *)
Lemma group_add_elem (t : Z) (v : V) (groups : list (Z * V)) (t' : Z) (v' : V) :
  StronglySorted Z.lt groups.*1 →
  (t', v') ∈ group_add add t v groups
  ↔ (t' ≠ t ∧ (t', v') ∈ groups)
    ∨ (t' = t ∧ ((∃ a, (t, a) ∈ groups ∧ v' = add a v)
                 ∨ ((∀ a, (t, a) ∉ groups) ∧ v' = v))).
Proof.
  induction groups as [|g groups IH]; intros Hs.
  - simpl. rewrite list_elem_of_singleton. split.
    + intros [= -> ->]. right. split; [done|]. right. split; [|done].
      intros a. apply not_elem_of_nil.
    + intros [[_ Hin]|[-> [(a & Hin & _)|[_ ->]]]]; try done;
        by apply elem_of_nil in Hin.
  - pose proof (StronglySorted_inv Hs) as [Hs' Hg]. simpl in Hs'.
    cbn [group_add]. destruct g as [k b]. simpl in *.
    destruct (t <? k) eqn:E1.
    { apply Z.ltb_lt in E1. rewrite !elem_of_cons. split.
      - intros [[= -> ->]|[[= -> ->]|Hin]].
        + right. split; [done|]. right. split; [|done].
          intros a [[= ?]|Hin]%elem_of_cons; [lia|].
          apply (sorted_head_fresh (k, b) groups t a); simpl; [done|lia|done].
        + left. split; [lia|]. by left.
        + left. split; [|by right]. intros ->.
          apply (sorted_head_fresh (k, b) groups t v'); simpl; [done|lia|done].
      - intros [[? [?|?]]|[-> [(a & [[= ?]|Hin]%elem_of_cons & ->)|[_ ->]]]];
          try tauto; try lia.
        exfalso.
        apply (sorted_head_fresh (k, b) groups t a); simpl; [done|lia|done]. }
    apply Z.ltb_ge in E1. destruct (t =? k) eqn:E2.
    { apply Z.eqb_eq in E2. subst k. rewrite !elem_of_cons. split.
      - intros [[= -> ->]|Hin].
        + right. split; [done|]. left. exists b. split; [by left | done].
        + left. split; [|by right]. intros ->.
          apply (sorted_head_fresh (t, b) groups t v'); simpl; [done|lia|done].
      - intros [[? [[= ? ?]|?]]|[-> [(a & [[= <-]|Hin]%elem_of_cons & ->)|[Hno _]]]];
          try tauto.
        + exfalso.
          apply (sorted_head_fresh (t, b) groups t a); simpl; [done|lia|done].
        + exfalso. apply (Hno b). by left. }
    apply Z.eqb_neq in E2. rewrite !elem_of_cons, (IH Hs'). split.
    + intros [[= -> ->]|[[? ?]|[-> [(a & Hin & ->)|[Hno ->]]]]].
      * left. split; [done | by left].
      * left. split; [done | by right].
      * right. split; [done|]. left. exists a. split; [by right | done].
      * right. split; [done|]. right. split; [|done].
        intros a [[= ? ?]|Hin]%elem_of_cons; [done|]. by apply (Hno a).
    + intros [[? [[= -> ->]|?]]|[-> [(a & [[= ? ?]|Hin]%elem_of_cons & ->)|[Hno ->]]]].
      * by left.
      * right. left. done.
      * done.
      * right. right. split; [done|]. left. by exists a.
      * right. right. split; [done|]. right. split; [|done].
        intros a Hin. apply (Hno a). by right.
Qed.

Lemma groupby_date_snoc (rs : list row) (r : row) :
  groupby_date add value (rs ++ [r])
  = match date_of r with
    | Some t => group_add add t (value r) (groupby_date add value rs)
    | None => groupby_date add value rs
    end.
Proof. unfold groupby_date. by rewrite foldl_app. Qed.

Lemma day_values_snoc (t : Z) (rs : list row) (r : row) :
  day_values value t (rs ++ [r])
  = day_values value t rs
    ++ (if bool_decide (date_of r = Some t) then [value r] else []).
Proof.
  unfold day_values. rewrite List.filter_app, fmap_app. simpl.
  by case_bool_decide.
Qed.

Lemma accumulate_snoc (vs : list V) (v : V) :
  accumulate add (vs ++ [v])
  = Some (match accumulate add vs with Some a => add a v | None => v end).
Proof. destruct vs as [|v0 vs]; simpl; [done|]. by rewrite foldl_app. Qed.

Lemma groupby_date_invariant (rs : list row) :
  StronglySorted Z.lt (groupby_date add value rs).*1
  ∧ ∀ t v, (t, v) ∈ groupby_date add value rs
           ↔ accumulate add (day_values value t rs) = Some v.
Proof.
  induction rs as [|r rs [IHs IHv]] using rev_ind.
  - split; [constructor|]. intros t v. cbn. by rewrite elem_of_nil.
  - rewrite groupby_date_snoc. destruct (date_of r) as [t0|] eqn:Er.
    + split; [by apply group_add_sorted|]. intros t v.
      rewrite group_add_elem by done. rewrite day_values_snoc.
      case_bool_decide as Ht.
      * rewrite Er in Ht. injection Ht as ->. rewrite accumulate_snoc. split.
        -- intros [[? _]|[_ [(a & Ha & ->)|[Hno ->]]]]; [done| |].
           ++ apply IHv in Ha. by rewrite Ha.
           ++ destruct (accumulate add (day_values value t rs)) as [a|] eqn:Ea;
                [|done].
              apply IHv in Ea. by destruct (Hno a).
        -- intros Hv. right. split; [done|].
           destruct (accumulate add (day_values value t rs)) as [a|] eqn:Ea.
           ++ left. exists a. split; [by apply IHv | congruence].
           ++ right. split; [|congruence]. intros a Ha%IHv. congruence.
      * rewrite app_nil_r, <- IHv. split.
        -- intros [[_ ?]|[-> _]]; [done | congruence].
        -- intros Hin. left. split; [congruence | done].
    + split; [done|]. intros t v. rewrite day_values_snoc.
      rewrite bool_decide_eq_false_2 by congruence. by rewrite app_nil_r.
Qed.

(** X12: the groups of [groupby('Date')] (lines 99 and 100) come in
    strictly increasing order of date, one group for each date that some
    record has and none for the records without a date; the value of the
    group of a date is the accumulation, in table order, of the values
    of exactly the records of that date. *)
Theorem groupby_date_groups (rs : list row) :
  StronglySorted Z.lt (groupby_date add value rs).*1
  ∧ (∀ t, t ∈ (groupby_date add value rs).*1
          ↔ ∃ r, r ∈ rs ∧ date_of r = Some t)
  ∧ (∀ t v, (t, v) ∈ groupby_date add value rs
            ↔ accumulate add (day_values value t rs) = Some v).
Proof.
  destruct (groupby_date_invariant rs) as [Hs Hv]. split_and!; [done| |done].
  intros t. rewrite list_elem_of_fmap. split.
  - intros ([t' v] & -> & Hin). simpl. apply Hv in Hin.
    unfold day_values in Hin.
    destruct (List.filter _ rs) as [|r l] eqn:E; [done|].
    assert (r ∈ List.filter (λ r, bool_decide (date_of r = Some t')) rs) as Hr
      by (rewrite E; by left).
    apply elem_of_filter in Hr as [Hr Hd]. apply bool_decide_eq_true in Hd.
    by exists r.
  - intros (r & Hr & Hd).
    assert (r ∈ List.filter (λ r, bool_decide (date_of r = Some t)) rs) as Hin
      by (apply elem_of_filter; split; [done | by apply bool_decide_eq_true]).
    destruct (accumulate add (day_values value t rs)) as [v|] eqn:Ea.
    + exists (t, v). split; [done | by apply Hv].
    + unfold day_values in Ea.
      destruct (List.filter _ rs); [by apply elem_of_nil in Hin | done].
Qed.

End GroupBy.

Lemma Qsum_cons (x : Q) (l : list Q) : Qsum (x :: l) = (x + Qsum l)%Q.
Proof. done. Qed.

Lemma Qsum_snoc (l : list Q) (x : Q) : (Qsum (l ++ [x]) == Qsum l + x)%Q.
Proof.
  induction l as [|y l IH].
  - cbn. lra.
  - rewrite <- app_comm_cons, !Qsum_cons. lra.
Qed.

Lemma Qsum_group_add {V} (add : V → V → V) (π : V → Q) (t : Z) (v : V)
    (groups : list (Z * V)) :
  (∀ a b, π (add a b) == π a + π b)%Q →
  (Qsum ((λ g, π g.2) <$> group_add add t v groups)
   == Qsum ((λ g, π g.2) <$> groups) + π v)%Q.
Proof.
  intros Hadd. induction groups as [|g groups IH]; cbn [group_add].
  - cbn. lra.
  - destruct (t <? g.1).
    { rewrite !fmap_cons, !Qsum_cons. cbn [snd]. lra. }
    destruct (t =? g.1).
    + rewrite !fmap_cons, !Qsum_cons. cbn [snd].
      pose proof (Hadd g.2 v). lra.
    + rewrite !fmap_cons, !Qsum_cons. lra.
Qed.

Lemma Qsum_groupby_date {V} (add : V → V → V) (value : row → V) (π : V → Q)
    (rs : list row) :
  (∀ a b, π (add a b) == π a + π b)%Q →
  (Qsum ((λ g, π g.2) <$> groupby_date add value rs)
   == Qsum ((λ r, π (value r)) <$> List.filter dated rs))%Q.
Proof.
  intros Hadd. induction rs as [|r rs IH] using rev_ind; [done|].
  rewrite groupby_date_snoc, List.filter_app, fmap_app. simpl. unfold dated.
  destruct (date_of r) as [t|].
  - rewrite Qsum_group_add by done. simpl. rewrite Qsum_snoc, IH. done.
  - simpl. by rewrite app_nil_r.
Qed.

Lemma Qsum_metric (c : string) (l : list row) :
  (Qsum (metric c <$> l) == sum_cells (cell_at c <$> l))%Q.
Proof.
  induction l as [|r l IH]; [done|]. rewrite !fmap_cons, Qsum_cons.
  unfold metric at 1. cbn [sum_cells foldr].
  fold (sum_cells (cell_at c <$> l)). destruct (cell_at c r); lra.
Qed.

(** X13: when the table has the columns they read, the two chart tables
    are computed without error, and what they show adds up: the likes,
    comments and shares per date sum to the totals of these columns over
    the records that have a date, and so do the impressions and clicks
    per date.  A record without a date contributes to no point of the
    charts. *)
Theorem charts_add_up_to_dated_totals (df : DataFrame) :
  Forall (λ c, c ∈ columns df)
    ["Date"; "Likes"; "Comments"; "Shares"; "Impressions"; "Clicks"] →
  ∃ over_time area,
    df_time df = Ok over_time ∧ df_area df = Ok area
    ∧ (Qsum ((λ g, g.2.1.1) <$> over_time) == total "Likes" (select dated df))%Q
    ∧ (Qsum ((λ g, g.2.1.2) <$> over_time)
       == total "Comments" (select dated df))%Q
    ∧ (Qsum ((λ g, g.2.2) <$> over_time) == total "Shares" (select dated df))%Q
    ∧ (Qsum ((λ g, g.2.1) <$> area) == total "Impressions" (select dated df))%Q
    ∧ (Qsum ((λ g, g.2.2) <$> area) == total "Clicks" (select dated df))%Q.
Proof.
  rewrite !Forall_cons. intros (Hd & Hl & Hc & Hs & Hi & Hk & _).
  unfold df_time, df_area. rewrite !df_col_present by done. run_result.
  eexists _, _. split; [done|]. split; [done|]. unfold total. run_result.
  split_and!.
  - rewrite (Qsum_groupby_date _ _ (λ v : Q * Q * Q, v.1.1)) by (by intros [[??]?] [[??]?]).
    apply Qsum_metric.
  - rewrite (Qsum_groupby_date _ _ (λ v : Q * Q * Q, v.1.2)) by (by intros [[??]?] [[??]?]).
    apply Qsum_metric.
  - rewrite (Qsum_groupby_date _ _ (λ v : Q * Q * Q, v.2)) by (by intros [[??]?] [[??]?]).
    apply Qsum_metric.
  - rewrite (Qsum_groupby_date _ _ (λ v : Q * Q, v.1)) by (by intros [??] [??]).
    apply Qsum_metric.
  - rewrite (Qsum_groupby_date _ _ (λ v : Q * Q, v.2)) by (by intros [??] [??]).
    apply Qsum_metric.
Qed.

(* ===================================================================== *)
(** * The shape of the hashtags and escaped keywords *)
(* ===================================================================== *)

Lemma hashtag_split_shape (s : text) (tags : list text) :
  hashtag_split s tags →
  Forall (λ tag, ∃ w, tag = "#"%char :: w ∧ w ≠ []
                      ∧ Forall (λ c, is_word c = true) w
                      ∧ contains tag s = true) tags
  ∧ (length tags ≤ length (List.filter (λ c, bool_decide (c = "#"%char)) s))%nat.
Proof.
  induction 1 as [g Hg | g w rest tags Hg Hw Hall Hrest _ [IH1 IH2]].
  - split; [constructor | simpl; lia].
  - split.
    + constructor.
      * exists w. split_and!; try done. apply contains_spec.
        by exists g, rest.
      * eapply Forall_impl; [exact IH1|].
        intros tag (w' & -> & ? & ? & Hin). exists w'. split_and!; try done.
        apply contains_spec in Hin as (pre & suf & ->).
        apply contains_spec. exists (g ++ "#"%char :: w ++ pre), suf.
        rewrite <- !app_assoc. simpl. by rewrite <- !app_assoc.
    + change ("#"%char :: w ++ rest) with (["#"%char] ++ w ++ rest).
      rewrite !List.filter_app, !length_app.
      assert (length (List.filter (λ c, bool_decide (c = "#"%char)) ["#"%char])
              = 1%nat) as -> by done.
      simpl. lia.
Qed.

Lemma parse_escaped (k : text) : Re.parse (re_escape k) = Some (Re.Lit <$> k).
Proof.
  induction k as [|c k IH]; [done|].
  change (re_escape (c :: k))
    with ((if Re.special c then ["\"%char; c] else [c]) ++ re_escape k).
  destruct (Re.special c) eqn:Hc.
  - cbn [app Re.parse]. rewrite bool_decide_eq_true_2 by done.
    by rewrite Hc, IH.
  - cbn [app Re.parse]. rewrite IH.
    destruct (bool_decide (c = "\"%char)) eqn:E1.
    { apply bool_decide_eq_true in E1 as ->. discriminate Hc. }
    destruct (bool_decide (c = "."%char)) eqn:E2.
    { apply bool_decide_eq_true in E2 as ->. discriminate Hc. }
    by rewrite Hc.
Qed.

Section TagsAndKeywords.
Context {lib : PyLib}.

(** X14: every hashtag extracted from a post is a ["#"] followed by at
    least one word character and by word characters only, and it occurs
    in the stringified post; there are no more hashtags than ["#"]
    characters in the post; and the list is empty exactly when no ["#"]
    of the post is directly followed by a word character. *)
Theorem hashtags_shape (post : cell) :
  Forall (λ tag, ∃ w, tag = "#"%char :: w ∧ w ≠ []
                      ∧ Forall (λ c, is_word c = true) w
                      ∧ contains tag (py_str post) = true) (hashtags post)
  ∧ (length (hashtags post)
     ≤ length (List.filter (λ c, bool_decide (c = "#"%char)) (py_str post)))%nat
  ∧ (hashtags post = [] ↔ no_hashtag (py_str post)).
Proof.
  unfold hashtags.
  pose proof (findall_split_bounded (length (py_str post)) (py_str post)
                (Nat.le_refl _)) as Hsplit.
  destruct (hashtag_split_shape _ _ Hsplit) as [Hshape Hcount].
  split_and!; [done | done |]. split.
  - intros Hnil. rewrite Hnil in Hsplit. by inversion Hsplit.
  - apply findall_no_hashtag.
Qed.

(** X15: a keyword in which every special character is written with a
    backslash before it is searched for literally: on a table with a Post
    column, the filter with the escaped form of a non-empty text keeps
    exactly the records whose stringified post contains that text up to
    letter case (a missing post reading ["nan"]). *)
Theorem escaped_keyword_is_literal (k : text) (df : DataFrame) :
  "Post" ∈ columns df → k ≠ [] →
  keyword_filter (re_escape k) df
  = Ok (select (λ r, contains_ci k (py_str (cell_at "Post" r))) df)
  ∧ ∀ s, contains_ci k s = true ↔ occurs_ci k s.
Proof.
  intros Hp Hk. split; [|intros s; apply contains_ci_spec].
  assert (re_escape k ≠ []) as Hne.
  { destruct k as [|c k]; [done|].
    change (re_escape (c :: k))
      with ((if Re.special c then ["\"%char; c] else [c]) ++ re_escape k).
    by destruct (Re.special c). }
  rewrite keyword_filter_nonempty by done.
  unfold re_compile. rewrite parse_escaped. run_result.
  unfold select. do 2 f_equal. apply List.filter_ext.
  intros r. apply search_literal.
Qed.

End TagsAndKeywords.

(* ===================================================================== *)
(** * A whole run *)
(* ===================================================================== *)

Lemma bind_ok_inv {A B} (m : result A) (f : A → result B) (b : B) :
  m ≫= f = Ok b → ∃ a, m = Ok a ∧ f a = Ok b.
Proof. destruct m as [a|e]; [|done]. intros Hf. by exists a. Qed.

Lemma df_col_ok_inv (c : string) (df : DataFrame) (l : list cell) :
  df_col c df = Ok l → c ∈ columns df.
Proof. unfold df_col. by case_bool_decide. Qed.

Lemma select_labels (keep : row → bool) (df : DataFrame) :
  (rows (select keep df)).*1 `sublist_of` (rows df).*1.
Proof. apply fmap_sublist, filter_sublist. Qed.

Section WholeRun.
Context {lib : PyLib}.

Lemma to_numeric_labels (c : string) (df d : DataFrame) :
  to_numeric c df = Ok d → (rows d).*1 = (rows df).*1.
Proof.
  unfold to_numeric. intros (l & _ & [= <-])%bind_ok_inv. apply assign_labels.
Qed.

Lemma to_datetime_labels (c : string) (df d : DataFrame) :
  to_datetime c df = Ok d → (rows d).*1 = (rows df).*1.
Proof.
  unfold to_datetime. intros (l & _ & [= <-])%bind_ok_inv. apply assign_labels.
Qed.

Lemma load_labels (df d : DataFrame) :
  load df = Ok d → (rows d).*1 = (rows df).*1.
Proof.
  unfold load. intros (d1 & H1 & H2)%bind_ok_inv.
  apply to_numeric_labels in H1. apply to_datetime_labels in H2. congruence.
Qed.

Lemma info_field_not_null (c : string) (dflt : text) (df : DataFrame) (x : cell) :
  info_field c dflt df = Ok x → x ≠ CNull.
Proof.
  unfold info_field. case_bool_decide; [|by intros [= <-]].
  intros (col & _ & Hx)%bind_ok_inv.
  destruct (List.filter _ col) as [|y l] eqn:E; [done|]. injection Hx as <-.
  assert (y ∈ List.filter (λ x, negb (is_null x)) col) as Hin
    by (rewrite E; by left).
  apply elem_of_filter in Hin as [_ Hy]. by destruct y.
Qed.

Lemma date_filter_ok_inv (date_range : list Z) (df d : DataFrame)
    (w : list string) :
  date_filter date_range df = Ok (d, w) →
  (rows d).*1 `sublist_of` (rows df).*1
  ∧ (length date_range = 2%nat → w = [])
  ∧ (length date_range ≠ 2%nat →
       w = ["Please select a valid start and end date."]).
Proof.
  destruct (decide (length date_range = 2%nat)) as [Hl|Hl].
  - destruct date_range as [|s [|e [|? ?]]]; try discriminate Hl.
    unfold date_filter. intros (l & _ & [= <- <-])%bind_ok_inv.
    split; [apply select_labels | done].
  - rewrite date_filter_not_pair by done. intros [= <- <-]. done.
Qed.

Lemma keyword_filter_labels (keyword : text) (df d : DataFrame) :
  keyword_filter keyword df = Ok d →
  (rows d).*1 `sublist_of` (rows df).*1.
Proof.
  destruct keyword as [|c k]; [by intros [= <-]|].
  unfold keyword_filter. intros (l & _ & Hk)%bind_ok_inv.
  apply bind_ok_inv in Hk as (found & _ & [= <-]). apply select_labels.
Qed.

Lemma coerce_metrics_labels (df d : DataFrame) :
  coerce_metrics df = Ok d → (rows d).*1 = (rows df).*1.
Proof.
  unfold coerce_metrics. intros (d1 & H1 & H)%bind_ok_inv.
  apply bind_ok_inv in H as (d2 & H2 & H).
  apply bind_ok_inv in H as (d3 & H3 & H).
  apply bind_ok_inv in H as (d4 & H4 & H).
  apply bind_ok_inv in H as (? & _ & H).
  apply bind_ok_inv in H as (? & _ & H).
  apply bind_ok_inv in H as (? & _ & [= <-]).
  rewrite assign_labels.
  apply to_numeric_labels in H1, H2, H3, H4. congruence.
Qed.

Lemma aggregate_ok_inv (df : DataFrame) (s : Summary) :
  aggregate df = Ok s →
  rows df ≠ []
  ∧ total_likes s = total "Likes" df
  ∧ total_comments s = total "Comments" df
  ∧ total_shares s = total "Shares" df
  ∧ total_clicks s = total "Clicks" df
  ∧ total_impressions s = total "Impressions" df.
Proof.
  intros Hs.
  destruct (decide (Forall (λ c, c ∈ columns df) metric_columns)) as [Hc|Hc].
  2: { apply aggregate_absent in Hc as [c Hc]. congruence. }
  split.
  { intros Hrows. rewrite aggregate_no_rows in Hs by done. done. }
  rewrite aggregate_present in Hs by done.
  destruct (idxmax "Likes" df) as [best|]; [|done]. run_result.
  destruct (loc best df) as [top|]; [|done]. run_result.
  destruct (idxmax "Total Engagement" df) as [best'|]; [|done]. run_result.
  destruct (loc best' df) as [top'|]; [|done]. run_result.
  by injection Hs as <-.
Qed.

Lemma derive_ok_inv (df d : DataFrame) :
  derive df = Ok d →
  (rows d).*1 = (rows df).*1
  ∧ ∀ c, c ∉ ["Short Post"; "Post Type"; "Hashtags"] → total c d = total c df.
Proof.
  unfold derive. intros (l & _ & [= <-])%bind_ok_inv. split.
  - by rewrite !assign_labels.
  - intros c Hc. rewrite !not_elem_of_cons in Hc.
    destruct Hc as (? & ? & ? & _).
    unfold total, assign. simpl. rewrite <- !list_fmap_compose.
    f_equal. apply list_fmap_ext. intros _ [i m] _. simpl. by cell_lookup.
Qed.

(** X16: whenever a run of the script on an uploaded table, a date
    selection and a keyword produces an output, the table shown has at
    least one record and its index labels are a subsequence of those of
    the upload; the platform and the person are not null; a warning is
    shown exactly when the date selection is not a pair; and the five
    totals of the summary are the column totals of the table shown. *)
Theorem dashboard_output (df : DataFrame) (date_range : list Z)
    (keyword : text) (out : Output) :
  dashboard df date_range keyword = Ok out →
  rows (table out) ≠ []
  ∧ (rows (table out)).*1 `sublist_of` (rows df).*1
  ∧ platform out ≠ CNull ∧ person out ≠ CNull
  ∧ (length date_range = 2%nat → warnings out = [])
  ∧ (length date_range ≠ 2%nat →
       warnings out = ["Please select a valid start and end date."])
  ∧ total_likes (summary out) = total "Likes" (table out)
  ∧ total_comments (summary out) = total "Comments" (table out)
  ∧ total_shares (summary out) = total "Shares" (table out)
  ∧ total_clicks (summary out) = total "Clicks" (table out)
  ∧ total_impressions (summary out) = total "Impressions" (table out).
Proof.
  unfold dashboard. intros (d1 & Hload & H)%bind_ok_inv.
  apply bind_ok_inv in H as (pf & Hpf & H).
  apply bind_ok_inv in H as (ps & Hps & H).
  apply bind_ok_inv in H as ([d2 w] & Hdate & H).
  apply bind_ok_inv in H as (d3 & Hkw & H).
  apply bind_ok_inv in H as (d4 & Hco & H).
  apply bind_ok_inv in H as (s & Hagg & H).
  apply bind_ok_inv in H as (d5 & Hder & [= <-]). simpl.
  apply load_labels in Hload. apply info_field_not_null in Hpf, Hps.
  apply date_filter_ok_inv in Hdate as (Hsub2 & Hw1 & Hw2).
  apply keyword_filter_labels in Hkw. apply coerce_metrics_labels in Hco.
  apply aggregate_ok_inv in Hagg as (Hne & Hl & Hc & Hs & Hk & Hi).
  apply derive_ok_inv in Hder as [Hlab Htot].
  assert (∀ c, c ∈ ["Likes"; "Comments"; "Shares"; "Clicks"; "Impressions"] →
            total c d5 = total c d4) as Hsame.
  { intros c Hc'. apply Htot. intros Hbad.
    apply list_elem_of_In in Hc', Hbad. simpl in Hc', Hbad.
    destruct Hc' as [<-|[<-|[<-|[<-|[<-|[]]]]]];
      destruct Hbad as [?|[?|[?|[]]]]; done. }
  split_and!; try done.
  - intros Hnil. apply Hne. apply (f_equal (fmap fst)) in Hnil.
    rewrite Hlab in Hnil. by apply fmap_nil_inv in Hnil.
  - rewrite Hlab, Hco, <- Hload. by etrans.
  - rewrite Hsame; [done|]. apply list_elem_of_In. simpl. tauto.
  - rewrite Hsame; [done|]. apply list_elem_of_In. simpl. tauto.
  - rewrite Hsame; [done|]. apply list_elem_of_In. simpl. tauto.
  - rewrite Hsame; [done|]. apply list_elem_of_In. simpl. tauto.
  - rewrite Hsame; [done|]. apply list_elem_of_In. simpl. tauto.
Qed.

End WholeRun.

(* ===================================================================== *)
(** * Two date selections *)
(* ===================================================================== *)

(** X17: filtering by one pair of dates and then by another keeps what a
    single filter keeps with the later of the two starts and the earlier
    of the two ends. *)
Theorem date_filters_intersect (s1 e1 s2 e2 : Z) (df : DataFrame) :
  "Date" ∈ columns df →
  (d ← fst <$> date_filter [s1; e1] df; fst <$> date_filter [s2; e2] d)
  = fst <$> date_filter [s1 `max` s2; e1 `min` e2] df.
Proof.
  intros Hd. rewrite !date_filter_pair by done. run_result.
  rewrite date_filter_pair by done. run_result.
  unfold select. simpl. do 2 f_equal. rewrite filter_andb.
  apply List.filter_ext. intros r. unfold in_range.
  destruct (cell_at "Date" r) as [| | |t|]; try done.
  apply eq_true_iff_eq. rewrite !andb_true_iff, !Z.leb_le. lia.
Qed.

(* ===================================================================== *)
(** * The further properties on concrete tables *)
(* ===================================================================== *)

Section MoreExamples.
#[local] Existing Instance plain_lib.

(** The header is trimmed, the dates of the scenario are days 1 and 2,
    and its charts have one point for each day. *)
Example strip_columns_example :
  strip_columns ["  Likes "; "Post"; "Date  "] = ["Likes"; "Post"; "Date"].
Proof. vm_compute. reflexivity. Qed.

Example scenario_charts :
  date_min scenario = Ok (Some 1) ∧ date_max scenario = Ok (Some 2)
  ∧ df_time scenario_metrics = Ok [(1, (10, 2, 1)%Q); (2, (50, 0, 0)%Q)]
  ∧ df_area scenario_metrics = Ok [(1, (100, 5)%Q); (2, (200, 20)%Q)].
Proof. split_and!; vm_compute; reflexivity. Qed.

Lemma date_filter_keeps_exactly_the_range_witness :
  "Date" ∈ columns scenario
  ∧ ∃ df', date_filter [1; 1] scenario = Ok (df', [])
           ∧ columns df' = columns scenario.
Proof.
  assert ("Date" ∈ columns scenario) as Hd by compute_done.
  split; [exact Hd|].
  destruct (date_filter_keeps_exactly_the_range 1 1 scenario) as [_ Hin].
  destruct (Hin Hd) as (df' & Hok & Hcols & _).
  exists df'. split; [exact Hok | exact Hcols].
Defined.

Lemma keyword_filter_outcomes_witness :
  txt "a" ≠ [] ∧ ("Post" ∉ columns no_post)
  ∧ keyword_filter (txt "a") no_post = Err (KeyError "Post").
Proof.
  assert (txt "a" ≠ []) as Hk by discriminate.
  assert ("Post" ∉ columns no_post) as Hp by compute_done.
  destruct (keyword_filter_outcomes (txt "a") no_post) as (_ & Habsent & _).
  split; [exact Hk|]. split; [exact Hp|]. exact (Habsent Hk Hp).
Defined.

Lemma date_bounds_cover_dated_records_witness :
  "Date" ∈ columns scenario
  ∧ date_min scenario = Ok (Some 1) ∧ date_max scenario = Ok (Some 2)
  ∧ date_filter [0; 5] scenario = Ok (select dated scenario, []).
Proof.
  assert ("Date" ∈ columns scenario) as Hd by compute_done.
  assert (date_min scenario = Ok (Some 1)) as Hlo by reflexivity.
  assert (date_max scenario = Ok (Some 2)) as Hhi by reflexivity.
  destruct (date_bounds_cover_dated_records scenario Hd) as (_ & _ & Hb).
  destruct (Hb 1 2 Hlo Hhi) as (_ & _ & _ & Hcover).
  split; [exact Hd|]. split; [exact Hlo|]. split; [exact Hhi|].
  apply (Hcover 0 5); lia.
Defined.

Lemma coerce_metrics_commutes_with_filters_witness :
  Forall (λ c, c ∈ columns scenario)
    ["Date"; "Post"; "Likes"; "Comments"; "Shares"; "Clicks"]
  ∧ (d ← fst <$> date_filter [1; 1] scenario; coerce_metrics d)
    = (d ← coerce_metrics scenario; fst <$> date_filter [1; 1] d).
Proof.
  assert (Forall (λ c, c ∈ columns scenario)
            ["Date"; "Post"; "Likes"; "Comments"; "Shares"; "Clicks"])
    as Hcols by (repeat constructor; compute_done).
  split; [exact Hcols|]. rewrite !Forall_cons in Hcols.
  destruct Hcols as (Hd & Hp & Hl & Hc & Hs & Hk & _).
  exact (proj1 (coerce_metrics_commutes_with_filters scenario [1; 1]
                  (txt "sale") Hd Hp Hl Hc Hs Hk)).
Defined.

Lemma top_posts_are_first_maxima_witness :
  NoDup (rows scenario_metrics).*1
  ∧ ∃ s, aggregate scenario_metrics = Ok s
      ∧ ∃ before q after,
          rows scenario_metrics = before ++ top_post s :: after
          ∧ cell_at "Likes" (top_post s) = CNum q
          ∧ (∀ r q', r ∈ before → cell_at "Likes" r = CNum q' → (q' < q)%Q)
          ∧ (∀ r q', r ∈ after → cell_at "Likes" r = CNum q' → (q' <= q)%Q).
Proof.
  assert (NoDup (rows scenario_metrics).*1) as Hnd by compute_done.
  split; [exact Hnd|].
  destruct (aggregate scenario_metrics) as [s|e] eqn:Hs;
    [|vm_compute in Hs; discriminate Hs].
  exists s. split; [reflexivity|].
  exact (proj1 (top_posts_are_first_maxima scenario_metrics s Hnd Hs)).
Defined.


Lemma derive_adds_three_columns_witness :
  "Post" ∈ columns scenario
  ∧ ∃ df', derive scenario = Ok df'
      ∧ ∀ c, c ∈ columns df'
             ↔ c ∈ columns scenario
               ∨ c ∈ ["Short Post"; "Post Type"; "Hashtags"].
Proof.
  assert ("Post" ∈ columns scenario) as Hp by compute_done.
  split; [exact Hp|].
  destruct (derive_adds_three_columns scenario) as [_ Hin].
  destruct (Hin Hp) as (df' & Hok & Hcols & _).
  exists df'. split; [exact Hok | exact Hcols].
Defined.

Lemma charts_add_up_to_dated_totals_witness :
  Forall (λ c, c ∈ columns scenario_metrics)
    ["Date"; "Likes"; "Comments"; "Shares"; "Impressions"; "Clicks"]
  ∧ ∃ over_time area,
      df_time scenario_metrics = Ok over_time
      ∧ df_area scenario_metrics = Ok area
      ∧ (Qsum ((λ g, g.2.1.1) <$> over_time)
         == total "Likes" (select dated scenario_metrics))%Q.
Proof.
  assert (Forall (λ c, c ∈ columns scenario_metrics)
            ["Date"; "Likes"; "Comments"; "Shares"; "Impressions"; "Clicks"])
    as Hcols by (repeat constructor; compute_done).
  split; [exact Hcols|].
  destruct (charts_add_up_to_dated_totals scenario_metrics Hcols)
    as (over_time & area & Ht & Ha & Hl & _).
  exists over_time, area. split; [exact Ht|]. split; [exact Ha | exact Hl].
Defined.

Lemma escaped_keyword_is_literal_witness :
  "Post" ∈ columns scenario ∧ txt "sale." ≠ []
  ∧ keyword_filter (re_escape (txt "sale.")) scenario
    = Ok (select (λ r, contains_ci (txt "sale.") (py_str (cell_at "Post" r)))
            scenario).
Proof.
  assert ("Post" ∈ columns scenario) as Hp by compute_done.
  assert (txt "sale." ≠ []) as Hk by discriminate.
  split; [exact Hp|]. split; [exact Hk|].
  exact (proj1 (escaped_keyword_is_literal (txt "sale.") scenario Hp Hk)).
Defined.

Lemma dashboard_output_witness :
  ∃ out, dashboard scenario [1; 2] [] = Ok out
         ∧ rows (table out) ≠ []
         ∧ (rows (table out)).*1 `sublist_of` (rows scenario).*1.
Proof.
  destruct (dashboard scenario [1; 2] []) as [out|e] eqn:Hrun;
    [|vm_compute in Hrun; discriminate Hrun].
  exists out. split; [reflexivity|].
  destruct (dashboard_output scenario [1; 2] [] out Hrun) as (Hne & Hsub & _).
  split; [exact Hne | exact Hsub].
Defined.

Lemma date_filters_intersect_witness :
  "Date" ∈ columns scenario
  ∧ (d ← fst <$> date_filter [0; 1] scenario; fst <$> date_filter [1; 5] d)
    = fst <$> date_filter [0 `max` 1; 1 `min` 5] scenario.
Proof.
  assert ("Date" ∈ columns scenario) as Hd by compute_done.
  split; [exact Hd|]. exact (date_filters_intersect 0 1 1 5 scenario Hd).
Defined.

End MoreExamples.
